(** * Tech Search Engine: the search form of [app.py] and the search service
      it calls.

    Definitions:
    - [PyStr]: the Python string operations the program uses ([str.strip],
      [str.lower], [in] on strings, truthiness);
    - [App]: [perform_search] and the search handling of
      [render_search_interface] from [app.py], as functions on an explicit
      world (session state, emitted UI events, the state of the service);
    - [Service]: the search-aggregation-and-caching service behind
      [search_service], whose code is not part of [app.py];
    - [Samples]: concrete collaborators to run both on;
    - [AppView]: [init_session_state], [render_results],
      [render_result_card] and the history labels of [app.py];
    - [Setup]: [setup.py];
    - [MoreSamples]: sample data for these.

    Properties: [PyStrFacts], [AppFacts] and [ServiceFacts] hold the
    supporting lemmas, [SearchForm] and [SearchService] the main
    results; [SearchRun], [PageView] and [SetupScript] cover the rest of
    [perform_search], the page and the setup script. *)

From Stdlib Require Import ZArith NArith List String Ascii Bool Lia Permutation.
From stdpp Require Import base gmap strings list fin_maps sorting pretty.
Import ListNotations.

Local Open Scope string_scope.

(** ** Python strings

    A [str] is modelled as a [string] whose characters are the code points
    below 256.  [is_space] and [lower_char] are Python's [str.isspace] and
    [str.lower] on that range. *)
Module PyStr.

Definition code (c : ascii) : N := N_of_ascii c.

(** [str.isspace] on one character: TAB..CR, FS..US and SPACE, NEL, NBSP. *)
Definition is_space (c : ascii) : bool :=
  let n := code c in
  ((9 <=? n) && (n <=? 13) || (28 <=? n) && (n <=? 32)
   || (n =? 133) || (n =? 160))%N.

(** Characters with a lowercase form: A..Z and the Latin-1 capitals
    U+00C0..U+00DE without the multiplication sign U+00D7. *)
Definition is_upper (c : ascii) : bool :=
  let n := code c in
  ((65 <=? n) && (n <=? 90)
   || (192 <=? n) && (n <=? 222) && negb (n =? 215))%N.

Definition lower_char (c : ascii) : ascii :=
  if is_upper c then ascii_of_N (code c + 32) else c.

(** [s.lower()] *)
Fixpoint lower (s : string) : string :=
  match s with
  | EmptyString => EmptyString
  | String c s' => String (lower_char c) (lower s')
  end.

(** [s.lstrip()] *)
Fixpoint lstrip (s : string) : string :=
  match s with
  | EmptyString => EmptyString
  | String c s' => if is_space c then lstrip s' else s
  end.

(** [s.rstrip()] *)
Fixpoint rstrip (s : string) : string :=
  match s with
  | EmptyString => EmptyString
  | String c s' =>
      match rstrip s' with
      | EmptyString => if is_space c then EmptyString else String c EmptyString
      | r => String c r
      end
  end.

(** [s.strip()] *)
Definition strip (s : string) : string := rstrip (lstrip s).

(** Truthiness of a [str]: the empty string is falsy. *)
Definition truthy (s : string) : bool :=
  match s with
  | EmptyString => false
  | String _ _ => true
  end.

(** [pat in s]: [pat] occurs in [s] as a contiguous substring. *)
Fixpoint contains (pat s : string) : bool :=
  String.prefix pat s ||
  match s with
  | EmptyString => false
  | String _ s' => contains pat s'
  end.

(** Every character of [s] is whitespace. *)
Fixpoint all_space (s : string) : Prop :=
  match s with
  | EmptyString => True
  | String c s' => is_space c = true /\ all_space s'
  end.

(** [s] and [t] have the same length and agree character by character up
    to letter case. *)
Fixpoint same_letters (s t : string) : Prop :=
  match s, t with
  | EmptyString, EmptyString => True
  | String c s', String d t' => lower_char c = lower_char d /\ same_letters s' t'
  | _, _ => False
  end.

(** [pat] occurs in [s] when letter case is ignored. *)
Definition occurs_ignoring_case (pat s : string) : Prop :=
  exists pre mid post, s = pre ++ mid ++ post /\ same_letters mid pat.

(** [s] and [t] differ only in letter case and in surrounding whitespace:
    each is a core text between two runs of whitespace, and the two cores
    agree up to letter case. *)
Definition same_up_to_case_and_padding (s t : string) : Prop :=
  exists a s' b a' t' b',
    s = a ++ s' ++ b /\ t = a' ++ t' ++ b' /\
    all_space a /\ all_space b /\ all_space a' /\ all_space b' /\
    same_letters s' t'.

End PyStr.

(** ** The data model of [core.models], as [app.py] uses it *)

(** [SearchProvider]: Tavily is the web-search provider, Groq the
    text-analysis provider, YouTube the transcript provider. *)
Inductive SearchProvider : Type := TAVILY | GROQ | YOUTUBE.

Global Instance SearchProvider_eq_dec : EqDecision SearchProvider.
Proof. solve_decision. Defined.

(** A metadata value ([Dict[str, Any]] holds texts and counts). *)
Inductive MetaValue : Type :=
  | MetaText (s : string)
  | MetaInt (n : Z).

(** [SearchQuery(query=..., domains=..., provider=..., limit=...)]; the
    constructor stores the four fields as given. *)
Module SearchQuery.
Record t : Type := make {
  query : string;
  domains : list string;
  provider : option SearchProvider;
  limit : Z
}.
End SearchQuery.

(** [SearchResult]: the fields read by [render_result_card] and the export. *)
Module SearchResult.
Record t : Type := make {
  title : string;
  url : option string;
  snippet : string;
  provider : SearchProvider;
  metadata : gmap string MetaValue
}.
End SearchResult.

(** ** [app.py] *)
Module App.

(** One entry of [st.session_state.search_history]. *)
Record HistoryEntry : Type := {
  h_query : string;
  h_provider : string;
  results_count : nat;
  timestamp : Z
}.

(** [st.session_state], after [init_session_state]. *)
Record SessionState : Type := {
  search_results : list SearchResult.t;
  search_history : list HistoryEntry;
  last_query : string
}.

(** The values the widgets of the search form return in one script run. *)
Record Widgets : Type := {
  w_query : string;          (* st.text_input *)
  w_search_button : bool;    (* st.button *)
  w_provider : string;       (* st.selectbox *)
  w_num_results : Z;         (* st.slider *)
  w_domains : list string    (* st.multiselect *)
}.

(** The options of the provider select box. *)
Definition provider_options : list string := ["Auto"; "Tavily"; "Groq"; "YouTube"].

(** The host substrings recognised by the auto-detection. *)
Definition video_patterns : list string := ["youtube.com"; "youtu.be"].

(** [any(pattern in query.lower() for pattern in [...])] *)
Definition is_video_url (query : string) : bool :=
  existsb (fun pattern => PyStr.contains pattern (PyStr.lower query)) video_patterns.

(** The provider chain at the top of [perform_search]; a name that is none
    of the three leaves [search_provider] at [None]. *)
Definition search_provider_of (provider : string) : option SearchProvider :=
  if String.eqb provider "Tavily" then Some TAVILY
  else if String.eqb provider "Groq" then Some GROQ
  else if String.eqb provider "YouTube" then Some YOUTUBE
  else None.

(** The select-box names that are explicit selections, with the provider
    each one stands for. *)
Definition explicit_providers : list (string * SearchProvider) :=
  [("Tavily", TAVILY); ("Groq", GROQ); ("YouTube", YOUTUBE)].

(** The text matches a video-hosting URL pattern: one of the recognised
    host substrings occurs in it, letter case ignored. *)
Definition video_url_text (query : string) : Prop :=
  exists pattern, In pattern video_patterns /\
                  PyStr.occurs_ignoring_case pattern query.

Section WithService.

(** [search_service] is an external collaborator: [search] takes the query
    and [use_cache], and either returns results or raises; [Svc] is whatever
    state the service keeps (its cache).  [Exn] is the exceptions of class
    [Exception], the ones [except Exception] in [perform_search] catches; a
    raise outside that class ([asyncio.CancelledError],
    [KeyboardInterrupt]) passes through [perform_search] and is not an
    outcome here. *)
Variable Svc : Type.
Variable Exn : Type.
Variable search : SearchQuery.t -> bool -> Svc -> (Exn + list SearchResult.t) * Svc.

(** What a script run shows or does, in program order. *)
Inductive Event : Type :=
  | StErrorEnterQuery                               (* st.error("Please enter a search query") *)
  | NewSearchQuery (q : SearchQuery.t)              (* SearchQuery(...) is constructed *)
  | StSpinner (provider : string)                   (* st.spinner(f"Searching with {provider}...") *)
  | ServiceCall (q : SearchQuery.t) (use_cache : bool)
  | StSuccessFound (n : nat)                        (* st.success(f"Found {n} results!") *)
  | StWarningNoResults                              (* st.warning("No results found. ...") *)
  | LogSearchFailed (e : Exn)                       (* logger.error(f"Search failed: ...") *)
  | StErrorSearchFailed (e : Exn).                  (* st.error(f"Search failed: ...") *)

Record World : Type := {
  session : SessionState;
  events : list Event;
  service : Svc;
  clock : Z                                          (* datetime.now() *)
}.

Definition emit (e : Event) (w : World) : World :=
  {| session := session w; events := events w ++ [e];
     service := service w; clock := clock w |}.

Definition perform_search (query provider : string) (num_results : Z)
    (domains : list string) (w : World) : World :=
  if negb (PyStr.truthy (PyStr.strip query)) then
    emit StErrorEnterQuery w
  else
    let search_provider := search_provider_of provider in
    let search_query :=
      SearchQuery.make (PyStr.strip query) domains search_provider num_results in
    let w := emit (NewSearchQuery search_query) w in
    let w := emit (ServiceCall search_query true) (emit (StSpinner provider) w) in
    match search search_query true (service w) with
    | (inr results, s') =>
        let entry := {| h_query := query; h_provider := provider;
                        results_count := length results; timestamp := clock w |} in
        let st := {| search_results := results;
                     search_history := take 10 (entry :: search_history (session w));
                     last_query := query |} in
        let w := {| session := st; events := events w; service := s'; clock := clock w |} in
        match results with
        | _ :: _ => emit (StSuccessFound (length results)) w
        | [] => emit StWarningNoResults w
        end
    | (inl e, s') =>
        let w := {| session := session w; events := events w;
                    service := s'; clock := clock w |} in
        emit (StErrorSearchFailed e) (emit (LogSearchFailed e) w)
    end.

(** The "Auto-detect provider if needed" block. *)
Definition auto_detect (provider query : string) : string :=
  if String.eqb provider "Auto" then
    if is_video_url query then "YouTube" else "Tavily"
  else provider.

(** The "Handle search" part of [render_search_interface]. *)
Definition render_search_interface (ws : Widgets) (w : World) : World :=
  if w_search_button ws && PyStr.truthy (PyStr.strip (w_query ws)) then
    let provider := auto_detect (w_provider ws) (w_query ws) in
    perform_search (w_query ws) provider (w_num_results ws) (w_domains ws) w
  else w.

(** The queries handed to the service, in order. *)
Fixpoint service_calls (es : list Event) : list (SearchQuery.t * bool) :=
  match es with
  | [] => []
  | ServiceCall q c :: es' => (q, c) :: service_calls es'
  | _ :: es' => service_calls es'
  end.

End WithService.

Arguments StErrorEnterQuery {Exn}.
Arguments NewSearchQuery {Exn} q.
Arguments StSpinner {Exn} provider.
Arguments ServiceCall {Exn} q use_cache.
Arguments StSuccessFound {Exn} n.
Arguments StWarningNoResults {Exn}.
Arguments LogSearchFailed {Exn} e.
Arguments StErrorSearchFailed {Exn} e.
Arguments session {Svc Exn} w.
Arguments events {Svc Exn} w.
Arguments service {Svc Exn} w.
Arguments clock {Svc Exn} w.
Arguments emit {Svc Exn} e w.
Arguments perform_search {Svc Exn} search query provider num_results domains w.
Arguments render_search_interface {Svc Exn} search ws w.
Arguments service_calls {Exn} es.

(** The routing of the search form as a relation between the select-box
    value, the query text and the provider the search runs with: one rule
    per branch of the source. *)
Inductive routes : string -> string -> string -> Prop :=
  | route_explicit provider query :
      provider <> "Auto" -> routes provider query provider
  | route_video query :
      (exists pattern, In pattern video_patterns /\
                       PyStr.contains pattern (PyStr.lower query) = true) ->
      routes "Auto" query "YouTube"
  | route_default query :
      (forall pattern, In pattern video_patterns ->
                       PyStr.contains pattern (PyStr.lower query) = false) ->
      routes "Auto" query "Tavily".

End App.

(** ** The search service

    [services/search_service] and [core/models] are not among the source
    files; the service is modelled from its specification. *)
Module Service.

(** Modelled from the spec: the failure kinds of a provider adapter's
    [fetch] (section 7); the adapters are missing from the source. *)
Inductive ErrorKind : Type :=
  Unauthorized | RateLimited | Timeout | Unreachable | Malformed.

(** Modelled from the spec: the normalisation of the query text behind the
    fingerprint, "regardless of surface formatting (case, whitespace)"
    (section 3); the fingerprint code is missing from the source. *)
Definition normalize_text (text : string) : string :=
  PyStr.lower (PyStr.strip text).

(** Modelled from the spec: "sorted domain filters" (section 3); the
    fingerprint code is missing from the source. *)
Definition sort_domains (ds : list string) : list string :=
  merge_sort String.le ds.

(** Modelled from the spec: the tuple the fingerprint hashes, "(normalized
    text, sorted domain filters, provider selection, limit)" (section 3);
    the fingerprint code is missing from the source. *)
Definition canonical (q : SearchQuery.t) : SearchQuery.t :=
  SearchQuery.make (normalize_text (SearchQuery.query q))
                   (sort_domains (SearchQuery.domains q))
                   (SearchQuery.provider q)
                   (SearchQuery.limit q).

(** Modelled from the spec: a cache entry, "ordered sequence of Results,
    creation timestamp, provider tag used", stored under its fingerprint
    (section 3); the cache store is missing from the source. *)
Record CacheEntry : Type := {
  entry_results : list SearchResult.t;
  created : Z;
  entry_provider : SearchProvider
}.

(** Modelled from the spec: the key of the deduplication, "by URL when
    present, else by normalized title+snippet" (section 4.5, step 6); the
    orchestrator is missing from the source. *)
Inductive DedupKey : Type :=
  | ByUrl (u : string)
  | ByText (t : string).

Global Instance DedupKey_eq_dec : EqDecision DedupKey.
Proof. solve_decision. Defined.

Definition dedup_key (r : SearchResult.t) : DedupKey :=
  match SearchResult.url r with
  | Some u => ByUrl u
  | None => ByText (normalize_text (SearchResult.title r ++ SearchResult.snippet r))
  end.

(** Two results count as the same item: both have a URL and the URLs are
    identical, or neither has a URL and their title plus snippet agree up
    to letter case and surrounding whitespace.  A result with a URL and one
    without are never the same item. *)
Definition same_item (r1 r2 : SearchResult.t) : Prop :=
  match SearchResult.url r1, SearchResult.url r2 with
  | Some u1, Some u2 => u1 = u2
  | None, None =>
      PyStr.same_up_to_case_and_padding
        (SearchResult.title r1 ++ SearchResult.snippet r1)
        (SearchResult.title r2 ++ SearchResult.snippet r2)
  | _, _ => False
  end.

(** Modelled from the spec: deduplication "preserving first-seen order"
    (section 4.5, step 6), as a pass that remembers the keys seen so far;
    the orchestrator is missing from the source. *)
Fixpoint dedupe_from {A K : Type} `{EqDecision K} (key : A -> K)
    (seen : list K) (rs : list A) : list A :=
  match rs with
  | [] => []
  | r :: rs' =>
      if decide (key r ∈ seen) then dedupe_from key seen rs'
      else r :: dedupe_from key (key r :: seen) rs'
  end.

Definition dedupe (rs : list SearchResult.t) : list SearchResult.t :=
  dedupe_from dedup_key [] rs.

(** Modelled from the spec: what [search] hands back, "ordered Result
    sequence, or aggregate failure" (section 6); partial failures travel in
    the diagnostics side channel (section 7).  The orchestrator is missing
    from the source. *)
Inductive Outcome : Type :=
  | Results (rs : list SearchResult.t)
            (diagnostics : list (SearchProvider * ErrorKind))
  | AllProvidersFailed (failures : list (SearchProvider * ErrorKind)).

(** Modelled from the spec: the fan-in of the adapter outcomes (section
    4.5, step 5); the orchestrator is missing from the source. *)
Record FanIn : Type := {
  collected : list SearchResult.t;
  failures : list (SearchProvider * ErrorKind);
  succeeded : list SearchProvider
}.

(** Modelled from the spec: the Query Router (section 4.4), explicit
    selection first, else the video-host patterns, else web search; the
    router is missing from the source. *)
Definition select (q : SearchQuery.t) : list SearchProvider :=
  match SearchQuery.provider q with
  | Some p => [p]
  | None => if App.is_video_url (SearchQuery.query q) then [YOUTUBE] else [TAVILY]
  end.

(** Two queries that differ only in the surface form of the text: the
    texts agree up to letter case and surrounding whitespace, and domain
    filters, provider selection and limit are equal. *)
Definition surface_variants (q1 q2 : SearchQuery.t) : Prop :=
  PyStr.same_up_to_case_and_padding (SearchQuery.query q1) (SearchQuery.query q2) /\
  SearchQuery.domains q1 = SearchQuery.domains q2 /\
  SearchQuery.provider q1 = SearchQuery.provider q2 /\
  SearchQuery.limit q1 = SearchQuery.limit q2.

(** Two domain filters differ as sets of tags: some tag is in one of them
    and not in the other. *)
Definition filters_differ (ds1 ds2 : list string) : Prop :=
  exists d, (In d ds1 /\ ~ In d ds2) \/ (~ In d ds1 /\ In d ds2).

(** The result sequence of an outcome, if it is not the aggregate failure. *)
Definition outcome_results (o : Outcome) : option (list SearchResult.t) :=
  match o with
  | Results rs _ => Some rs
  | AllProvidersFailed _ => None
  end.

Section Store.

(** The configured time-to-live; times are in the unit of the clock. *)
Variable ttl : Z.

(** Modelled from the spec: "an entry whose age exceeds the TTL" (section
    4.3); the cache store is missing from the source. *)
Definition expired (now : Z) (e : CacheEntry) : bool := (ttl <? now - created e)%Z.

(** Modelled from the spec: [get(fingerprint)], which "treats an entry
    whose age exceeds the TTL as a miss" (section 4.3); the cache store is
    missing from the source. *)
Definition get (c : gmap string CacheEntry) (now : Z) (fp : string) : option CacheEntry :=
  match c !! fp with
  | Some e => if expired now e then None else Some e
  | None => None
  end.

(** Modelled from the spec: [put(fingerprint, results, provider-tag)],
    which "upserts; records current time as creation timestamp" (section
    4.3); the cache store is missing from the source. *)
Definition put (c : gmap string CacheEntry) (now : Z) (fp : string)
    (rs : list SearchResult.t) (tag : SearchProvider) : gmap string CacheEntry :=
  <[fp := {| entry_results := rs; created := now; entry_provider := tag |}]> c.

(** Modelled from the spec: [cleanup()], which "deletes all entries whose
    age exceeds the TTL" and "returns the deleted count" (section 4.3);
    the cache store is missing from the source. *)
Definition cleanup (c : gmap string CacheEntry) (now : Z) : gmap string CacheEntry * nat :=
  let kept := filter (fun kv => expired now kv.2 = false) c in
  (kept, size c - size kept).

End Store.

Section Orchestrator.

(** The provider collaborators: [fetch] per adapter and the normalizer per
    provider variant, over the provider-native item type. *)
Variable Native : Type.
Variable fetch : SearchProvider -> SearchQuery.t -> ErrorKind + list Native.
Variable normalize : SearchProvider -> Native -> SearchResult.t.

(** The router in use, the hash of the fingerprint, the time-to-live, and
    the provider tag stored with an entry. *)
Variable router : SearchQuery.t -> list SearchProvider.
Variable hash : SearchQuery.t -> string.
Variable ttl : Z.
Variable cache_tag : list SearchProvider -> SearchProvider.

(** Modelled from the spec: "a deterministic hash over (normalized text,
    sorted domain filters, provider selection, limit)" (section 3); the
    fingerprint code is missing from the source. *)
Definition fingerprint (q : SearchQuery.t) : string := hash (canonical q).

(** The outcome of one adapter for a query: whether it succeeded, and its
    normalized results (none when it failed). *)
Definition succeeds (q : SearchQuery.t) (p : SearchProvider) : bool :=
  match fetch p q with
  | inr _ => true
  | inl _ => false
  end.

Definition provider_results (q : SearchQuery.t) (p : SearchProvider) : list SearchResult.t :=
  match fetch p q with
  | inr items => map (normalize p) items
  | inl _ => []
  end.

(** Modelled from the spec: steps 4 and 5 of [search] (section 4.5), in
    dispatch order; the orchestrator is missing from the source. *)
Fixpoint fan_in (ps : list SearchProvider) (q : SearchQuery.t) : FanIn :=
  match ps with
  | [] => {| collected := []; failures := []; succeeded := [] |}
  | p :: ps' =>
      let rest := fan_in ps' q in
      match fetch p q with
      | inr items =>
          {| collected := map (normalize p) items ++ collected rest;
             failures := failures rest;
             succeeded := p :: succeeded rest |}
      | inl kind =>
          {| collected := collected rest;
             failures := (p, kind) :: failures rest;
             succeeded := succeeded rest |}
      end
  end.

(** Modelled from the spec: [search(query, use_cache)] (section 4.5, steps
    1 to 8) at clock reading [now] over the cache [c]; the orchestrator is
    missing from the source. *)
Definition search (q : SearchQuery.t) (use_cache : bool) (now : Z)
    (c : gmap string CacheEntry) : Outcome * gmap string CacheEntry :=
  let fp := fingerprint q in
  match (if use_cache then get ttl c now fp else None) with
  | Some e => (Results (entry_results e) [], c)
  | None =>
      let gathered := fan_in (router q) q in
      let results :=
        take (Z.to_nat (SearchQuery.limit q)) (dedupe (collected gathered)) in
      match succeeded gathered with
      | [] => (AllProvidersFailed (failures gathered), c)
      | _ :: _ =>
          (Results results (failures gathered),
           put c now fp results (cache_tag (succeeded gathered)))
      end
  end.

(** The search takes the fetch path: the cache is not consulted, or has
    no live entry for the fingerprint. *)
Definition cache_miss (q : SearchQuery.t) (use_cache : bool) (now : Z)
    (c : gmap string CacheEntry) : Prop :=
  use_cache = false \/ get ttl c now (fingerprint q) = None.

(** Modelled from the spec: [cleanup_cache()], which "delegates to Cache
    Store cleanup" (section 4.5); the orchestrator is missing from the
    source. *)
Definition cleanup_cache (now : Z) (c : gmap string CacheEntry) :
    gmap string CacheEntry * nat :=
  cleanup ttl c now.

End Orchestrator.

Arguments succeeds {Native} fetch q p.
Arguments provider_results {Native} fetch normalize q p.
Arguments fan_in {Native} fetch normalize ps q.
Arguments search {Native} fetch normalize router hash ttl cache_tag q use_cache now c.

End Service.

(** ** Sample collaborators

    A small concrete setting to run the service and the form on: a web
    search that answers with three items, a text-analysis provider
    without a credential, and a transcript provider that times out. *)
Module Samples.
Import Service.

(** A provider-native item: title, URL, snippet. *)
Definition Native : Type := string * string * string.

Definition web_items : list Native :=
  [("Qubits explained", "https://example.org/qubits", "An introduction");
   ("Error correction", "https://example.org/qec", "Surface codes");
   ("Shor's algorithm", "https://example.org/shor", "Factoring")].

Definition fetch (p : SearchProvider) (q : SearchQuery.t) : ErrorKind + list Native :=
  match p with
  | TAVILY => inr web_items
  | GROQ => inl Unauthorized
  | YOUTUBE => inl Timeout
  end.

Definition normalize (p : SearchProvider) (item : Native) : SearchResult.t :=
  SearchResult.make item.1.1 (Some item.1.2) item.2 p ∅.

(** A router that asks the transcript and the web-search provider. *)
Definition two_providers (q : SearchQuery.t) : list SearchProvider := [YOUTUBE; TAVILY].

Global Instance SearchProvider_countable : Countable SearchProvider.
Proof.
  refine (inj_countable'
    (fun p => match p with TAVILY => 0 | GROQ => 1 | YOUTUBE => 2 end)
    (fun n => match n with 0 => TAVILY | 1 => GROQ | _ => YOUTUBE end) _).
  by intros [].
Defined.

(** A collision-free digest: the decimal code of the hashed tuple. *)
Definition hash (q : SearchQuery.t) : string :=
  pretty (encode (SearchQuery.query q, SearchQuery.domains q,
                  SearchQuery.provider q, SearchQuery.limit q)).

Definition ttl : Z := 3600.

Definition cache_tag (ps : list SearchProvider) : SearchProvider := hd TAVILY ps.

(** The service as [app.py] sees it: the state is the service clock and the
    cache, an aggregate failure is raised as an exception. *)
Definition search_service (q : SearchQuery.t) (use_cache : bool)
    (st : Z * gmap string CacheEntry) :
    (list (SearchProvider * ErrorKind) + list SearchResult.t)
    * (Z * gmap string CacheEntry) :=
  let '(outcome, c) :=
    search fetch normalize select hash ttl cache_tag q use_cache st.1 st.2 in
  (match outcome with
   | Results rs _ => inr rs
   | AllProvidersFailed fs => inl fs
   end, (st.1, c)).

(** A fresh session over an empty cache. *)
Definition fresh_world : App.World (Z * gmap string CacheEntry)
                                   (list (SearchProvider * ErrorKind)) :=
  {| App.session := {| App.search_results := []; App.search_history := [];
                       App.last_query := "" |};
     App.events := [];
     App.service := (0%Z, ∅);
     App.clock := 0%Z |}.

Definition form (query provider : string) : App.Widgets :=
  {| App.w_query := query; App.w_search_button := true;
     App.w_provider := provider; App.w_num_results := 10;
     App.w_domains := [] |}.

(** Results for the deduplication: [page_again] repeats the URL of [page],
    [note_again] repeats the text of [note] in another letter case. *)
Definition page : SearchResult.t :=
  SearchResult.make "Qubits explained" (Some "https://example.org/qubits")
                    "An introduction" TAVILY ∅.
Definition other_page : SearchResult.t :=
  SearchResult.make "Error correction" (Some "https://example.org/qec")
                    "Surface codes" TAVILY ∅.
Definition page_again : SearchResult.t :=
  SearchResult.make "Qubits (mirror)" (Some "https://example.org/qubits")
                    "A copy" YOUTUBE ∅.
Definition note : SearchResult.t :=
  SearchResult.make "Summary" None "Qubits are two-level systems" GROQ ∅.
Definition note_again : SearchResult.t :=
  SearchResult.make "SUMMARY" None "qubits are two-level systems " GROQ ∅.

Definition mixed_results : list SearchResult.t :=
  [page; other_page; page_again; note; note_again].

(** Queries for the fingerprint. *)
Definition padded_query : SearchQuery.t :=
  SearchQuery.make "  Quantum Computing " ["ai"] None 10.
Definition tidy_query : SearchQuery.t :=
  SearchQuery.make "quantum computing" ["ai"] None 10.
Definition filtered_query : SearchQuery.t :=
  SearchQuery.make "quantum computing" ["ai"; "web"] None 10.
Definition groq_query : SearchQuery.t :=
  SearchQuery.make "quantum computing" [] (Some GROQ) 10.

Definition video_query : string := "https://www.youtube.com/watch?v=abc123".
Definition plain_query : string := "quantum computing".

End Samples.

(** ** [app.py]: session set-up, result cards, results list, sidebar labels *)
Module AppView.

Global Instance MetaValue_eq_dec : EqDecision MetaValue.
Proof. solve_decision. Defined.

(** A value kept in [st.session_state]. *)
Inductive SessionValue : Type :=
  | VResults (rs : list SearchResult.t)
  | VHistory (h : list App.HistoryEntry)
  | VText (s : string).

(** [if key not in st.session_state: st.session_state[key] = v] *)
Definition set_if_missing (key : string) (v : SessionValue)
    (st : gmap string SessionValue) : gmap string SessionValue :=
  match st !! key with
  | Some _ => st
  | None => <[key := v]> st
  end.

Definition init_session_state (st : gmap string SessionValue) : gmap string SessionValue :=
  let st := set_if_missing "search_results" (VResults []) st in
  let st := set_if_missing "search_history" (VHistory []) st in
  set_if_missing "last_query" (VText "") st.

(** The three attributes the page reads, when they hold values of the
    expected kind. *)
Definition session_of (st : gmap string SessionValue) : option App.SessionState :=
  match st !! "search_results", st !! "search_history", st !! "last_query" with
  | Some (VResults rs), Some (VHistory h), Some (VText q) =>
      Some {| App.search_results := rs; App.search_history := h;
              App.last_query := q |}
  | _, _, _ => None
  end.

(** What [render_results] and [render_result_card] put on the page. *)
Inductive Element : Type :=
  | InfoNoResults                                   (* st.info("No results to display.") *)
  | InfoGetStarted                                  (* st.info("Enter a search query above ...") *)
  | Summary (n_results n_providers : nat) (names : list string)
  | SelectBox (key : string) (options : list string)
  | Checkbox (key : string)
  | Subheader (n : nat)                             (* st.subheader(f"Results ({n})") *)
  | Badge (provider : SearchProvider)               (* the provider badge *)
  | TitleLink (title url : string)                  (* "### [title](url)" *)
  | Title (title : string)                          (* "### title" *)
  | Snippet (text : string)                         (* st.write(result.snippet) *)
  | TranscriptInfo (segments : MetaValue)
  | TextArea (key : string) (text : MetaValue)
  | AnalysisInfo (model tokens : MetaValue)
  | Markdown (text : MetaValue)
  | Json (metadata : gmap string MetaValue)
  | Divider.

(** The key of a widget element. *)
Definition element_key (e : Element) : option string :=
  match e with
  | SelectBox k _ | Checkbox k | TextArea k _ => Some k
  | _ => None
  end.

(** The keys of the widgets among the elements, in page order. *)
Definition widget_keys (es : list Element) : list string := omap element_key es.

(** The three attributes [init_session_state] looks after. *)
Definition session_keys : list string :=
  ["search_results"; "search_history"; "last_query"].

(** [f"{name}_{index}"] *)
Definition indexed_key (name : string) (index : nat) : string :=
  name ++ "_" ++ pretty index.

(** [metadata.get(key, default)] *)
Definition meta_get (m : gmap string MetaValue) (key : string) (d : MetaValue) : MetaValue :=
  default d (m !! key).

Section Page.

(** [SearchProvider.value], the text of each enumeration member, and the
    state of the check boxes by key. *)
Variable value : SearchProvider -> string.
Variable checked : string -> bool.

Definition render_result_card (result : SearchResult.t) (index : nat) : list Element :=
  let meta := SearchResult.metadata result in
  [Badge (SearchResult.provider result)]
  ++ [match SearchResult.url result with
      | Some u => if PyStr.truthy u then TitleLink (SearchResult.title result) u
                  else Title (SearchResult.title result)
      | None => Title (SearchResult.title result)
      end]
  ++ (if PyStr.truthy (SearchResult.snippet result)
      then [Snippet (SearchResult.snippet result)] else [])
  ++ (if bool_decide (SearchResult.provider result = YOUTUBE)
         && bool_decide (meta !! "type" = Some (MetaText "transcript"))
      then
        [TranscriptInfo (meta_get meta "transcript_length" (MetaInt 0));
         Checkbox (indexed_key "transcript" index)]
        ++ (if checked (indexed_key "transcript" index)
            then [TextArea (indexed_key "transcript_text" index)
                           (meta_get meta "full_transcript" (MetaText ""))]
            else [])
      else if bool_decide (SearchResult.provider result = GROQ)
              && bool_decide (meta !! "type" = Some (MetaText "ai_analysis"))
      then
        [AnalysisInfo (meta_get meta "model_used" (MetaText "unknown"))
                      (meta_get meta "tokens_used" (MetaInt 0));
         Checkbox (indexed_key "analysis" index)]
        ++ (if checked (indexed_key "analysis" index)
            then [Markdown (meta_get meta "full_analysis" (MetaText ""))]
            else [])
      else [])
  ++ [Checkbox (indexed_key "metadata" index)]
  ++ (if checked (indexed_key "metadata" index) then [Json meta] else [])
  ++ [Divider].

(** [set(r.provider.value for r in results)] *)
Definition providers (results : list SearchResult.t) : gset string :=
  list_to_set ((fun r => value (SearchResult.provider r)) <$> results).

(** [["All"] + list(providers)]; a Python set has no fixed order, the
    order of [elements] stands for whichever order the run has. *)
Definition filter_options (results : list SearchResult.t) : list string :=
  "All" :: elements (providers results).

(** The "Apply filters" step. *)
Definition filtered_results (provider_filter : string)
    (results : list SearchResult.t) : list SearchResult.t :=
  if String.eqb provider_filter "All" then results
  else List.filter
         (fun r => String.eqb (value (SearchResult.provider r)) provider_filter)
         results.

(** [for i, result in enumerate(filtered_results): render_result_card(result, i)],
    counting from [i]. *)
Fixpoint render_cards (rs : list SearchResult.t) (i : nat) : list Element :=
  match rs with
  | [] => []
  | r :: rs' => render_result_card r i ++ render_cards rs' (S i)
  end.

(** [render_results]; [provider_filter] is what the filter select box
    returns. *)
Definition render_results (session : App.SessionState) (provider_filter : string) :
    list Element :=
  match App.search_results session with
  | [] =>
      if PyStr.truthy (App.last_query session) then [InfoNoResults]
      else [InfoGetStarted]
  | results =>
      let shown := filtered_results provider_filter results in
      [Summary (length results) (size (providers results))
               (elements (providers results));
       SelectBox "provider_filter" (filter_options results);
       Checkbox "show_transcripts";
       Subheader (length shown)]
      ++ render_cards shown 0
  end.

End Page.

(** The history holds at most the ten entries [perform_search] keeps. *)
Definition history_bounded (s : App.SessionState) : Prop :=
  length (App.search_history s) <= 10.

(** The newest history entry counts the results on display; without any
    history there are no results. *)
Definition history_matches_results (s : App.SessionState) : Prop :=
  match App.search_history s with
  | [] => App.search_results s = []
  | newest :: _ => App.results_count newest = length (App.search_results s)
  end.

(** The label of a "Recent Searches" button:
    [f"{q[:25]}..." if len(q) > 25 else q]. *)
Definition history_label (q : string) : string :=
  if Nat.ltb 25 (String.length q) then substring 0 25 q ++ "..." else q.

End AppView.

(** ** [setup.py] *)
Module Setup.
Local Open Scope list_scope.

(** A line the script prints. *)
Inductive Line : Type :=
  | Banner                       (* "Tech Search Engine Setup" *)
  | Rule                         (* "=" * 40 *)
  | PythonTooOld                 (* "Python 3.11+ is required" *)
  | PythonDetected               (* "Python ... detected" *)
  | CreatingEnv                  (* "Creating .env file from template..." *)
  | EnvCreated                   (* ".env file created. ..." *)
  | NoEnvExample                 (* "No env.example file found!" *)
  | EnvExists                    (* ".env file already exists." *)
  | MissingPackages              (* "Missing packages:" *)
  | MissingPackage (package : string)
  | InstallHint                  (* "Install with: pip install -r requirements.txt" *)
  | AllInstalled                 (* "All required packages are installed." *)
  | ApiKeyIssues                 (* "API Key Issues:" *)
  | ApiKeyIssue (issue : string)
  | EditEnvHint                  (* "Edit your .env file with valid API keys." *)
  | ApiKeysConfigured            (* "API keys are configured." *)
  | SetupComplete                (* "Setup complete! Run: streamlit run app.py" *)
  | SetupPartial                 (* "Setup partially complete. ..." *)
  | ThenRun.                     (* "   Then run: streamlit run app.py" *)

(** [create_env_file] over the files of the working directory (path to
    text): the printed lines, the returned flag, the files afterwards. *)
Definition create_env_file (fs : gmap string string) :
    list Line * bool * gmap string string :=
  match fs !! ".env", fs !! "env.example" with
  | None, Some template =>
      ([CreatingEnv; EnvCreated], true, <[".env" := template]> fs)
  | None, None => ([NoEnvExample], false, fs)
  | Some _, _ => ([EnvExists], true, fs)
  end.

Definition required_packages : list string :=
  ["streamlit"; "httpx"; "pydantic"; "pydantic-settings"; "sqlmodel";
   "youtube_transcript_api"; "python-dotenv"].

(** [s.replace(old, new)] for one-character [old] and [new]. *)
Fixpoint replace_char (old new : ascii) (s : string) : string :=
  match s with
  | EmptyString => EmptyString
  | String c s' =>
      String (if Ascii.eqb c old then new else c) (replace_char old new s')
  end.

(** The module name [check_dependencies] imports for a package. *)
Definition module_name (package : string) : string :=
  if String.eqb package "python-dotenv" then "dotenv"
  else if String.eqb package "youtube-transcript-api" then "youtube_transcript_api"
  else if String.eqb package "pydantic-settings" then "pydantic_settings"
  else replace_char "-" "_" package.

Section Environment.

(** Whether [__import__(name)] succeeds (it raises [ImportError]
    otherwise), and [os.getenv] once the [.env] file is loaded. *)
Variable importable : string -> bool.
Variable getenv : string -> option string.

(** The loop of [check_dependencies]. *)
Fixpoint missing_among (packages : list string) : list string :=
  match packages with
  | [] => []
  | package :: rest =>
      if importable (module_name package) then missing_among rest
      else package :: missing_among rest
  end.

Definition check_dependencies : list Line * bool :=
  match missing_among required_packages with
  | [] => ([AllInstalled], true)
  | missing => (MissingPackages :: map MissingPackage missing ++ [InstallHint], false)
  end.

(** [not key or key.startswith("your_")] *)
Definition unconfigured (key : option string) : bool :=
  match key with
  | None => true
  | Some k => negb (PyStr.truthy k) || String.prefix "your_" k
  end.

Definition api_key_issues : list string :=
  (if unconfigured (getenv "TAVILY_API_KEY")
   then ["TAVILY_API_KEY not configured"] else [])
  ++ (if unconfigured (getenv "GROQ_API_KEY")
      then ["GROQ_API_KEY not configured"] else []).

Definition check_api_keys : list Line * bool :=
  match api_key_issues with
  | [] => ([ApiKeysConfigured], true)
  | issues => (ApiKeyIssues :: map ApiKeyIssue issues ++ [EditEnvHint], false)
  end.

(** A key is configured: it is set, not empty, and not a placeholder of
    the template (those start with [your_]). *)
Definition configured (name : string) : Prop :=
  exists v, getenv name = Some v /\ v <> "" /\
            ~ (exists rest, v = ("your_" ++ rest)%string).

(** [sys.version_info < (3, 11)], on the major and minor number. *)
Definition too_old (version : Z * Z) : bool :=
  (version.1 <? 3)%Z || ((version.1 =? 3)%Z && (version.2 <? 11)%Z).

Definition main (version : Z * Z) (fs : gmap string string) :
    list Line * bool * gmap string string :=
  let out := [Banner; Rule] in
  if too_old version then (out ++ [PythonTooOld], false, fs)
  else
    let out := out ++ [PythonDetected] in
    let '(lines, created, fs) := create_env_file fs in
    let out := out ++ lines in
    if negb created then (out, false, fs)
    else
      let '(lines, deps_ok) := check_dependencies in
      let out := out ++ lines in
      if negb deps_ok then (out, false, fs)
      else
        let '(lines, api_keys_ok) := check_api_keys in
        let out := out ++ lines ++ [Rule] in
        if api_keys_ok then (out ++ [SetupComplete], true, fs)
        else (out ++ [SetupPartial; ThenRun], true, fs).

End Environment.

End Setup.

(** ** More sample data *)
Module MoreSamples.

(** A service that raises for the text-analysis provider and answers two
    results otherwise. *)
Definition flaky_service (q : SearchQuery.t) (use_cache : bool) (calls : nat) :
    (string + list SearchResult.t) * nat :=
  match SearchQuery.provider q with
  | Some GROQ => (inl "Unauthorized", S calls)
  | _ => (inr [Samples.page; Samples.other_page], S calls)
  end.

Definition first_run : App.World nat string :=
  {| App.session := {| App.search_results := []; App.search_history := [];
                       App.last_query := "" |};
     App.events := []; App.service := 0; App.clock := 1700000000%Z |}.

Definition provider_value (p : SearchProvider) : string :=
  match p with
  | TAVILY => "tavily"
  | GROQ => "groq"
  | YOUTUBE => "youtube"
  end.

Definition transcript_result : SearchResult.t :=
  SearchResult.make "Talk" (Some "https://youtu.be/abc123") "Hello everyone"
    YOUTUBE
    (<["type" := MetaText "transcript"]>
       (<["transcript_length" := MetaInt 42]> ∅)).

Definition all_checked (key : string) : bool := true.

(** A working directory with the template only. *)
Definition template_only : gmap string string :=
  {["env.example" := "TAVILY_API_KEY=your_tavily_key"]}.

Definition everything_installed (name : string) : bool := true.

Definition keys_set (name : string) : option string :=
  if String.eqb name "TAVILY_API_KEY" then Some "tvly-123"
  else if String.eqb name "GROQ_API_KEY" then Some "gsk-456"
  else None.

Definition placeholder_keys (name : string) : option string :=
  if String.eqb name "TAVILY_API_KEY" then Some "your_tavily_key"
  else None.

End MoreSamples.

(** * Properties *)

(** ** Facts about the string operations *)
Module PyStrFacts.
Import PyStr.

Lemma str_app_cons c (s t : string) : String c s ++ t = String c (s ++ t).
Proof. reflexivity. Qed.

Lemma str_app_empty_l (s : string) : "" ++ s = s.
Proof. reflexivity. Qed.

Lemma str_app_empty_r (s : string) : s ++ "" = s.
Proof. induction s as [|c s IH]; [reflexivity|]. by rewrite ?str_app_cons, IH. Qed.

Lemma str_app_assoc (s t u : string) : (s ++ t) ++ u = s ++ t ++ u.
Proof. induction s as [|c s IH]; [reflexivity|]. by rewrite ?str_app_cons, IH. Qed.

Lemma is_space_lower_char c : is_space (lower_char c) = is_space c.
Proof. destruct c as [[] [] [] [] [] [] [] []]; vm_compute; reflexivity. Qed.

Lemma lower_char_idem c : lower_char (lower_char c) = lower_char c.
Proof. destruct c as [[] [] [] [] [] [] [] []]; vm_compute; reflexivity. Qed.

Lemma same_case_same_space c d :
  lower_char c = lower_char d -> is_space c = is_space d.
Proof.
  intros H. rewrite <- (is_space_lower_char c), <- (is_space_lower_char d).
  by rewrite H.
Qed.

Lemma lower_app s t : lower (s ++ t) = lower s ++ lower t.
Proof.
  induction s as [|c s IH]; [reflexivity|].
  rewrite ?str_app_cons. simpl. by rewrite IH.
Qed.

Lemma lower_idem s : lower (lower s) = lower s.
Proof.
  induction s as [|c s IH]; [reflexivity|].
  simpl. by rewrite lower_char_idem, IH.
Qed.

Lemma same_letters_lower s t : same_letters s t <-> lower s = lower t.
Proof.
  revert t. induction s as [|c s IH]; intros [|d t]; simpl; try easy.
  rewrite IH. split.
  - intros [-> ->]. reflexivity.
  - intros H. by injection H.
Qed.

Lemma same_letters_refl s : same_letters s s.
Proof. by apply same_letters_lower. Qed.

(** Splitting [lower q] splits [q]. *)
Lemma lower_eq_app q a b :
  lower q = a ++ b -> exists qa qb, q = qa ++ qb /\ lower qa = a /\ lower qb = b.
Proof.
  revert q. induction a as [|c a IH]; intros q H.
  - exists "", q. by rewrite str_app_empty_l in H.
  - destruct q as [|d q]; [discriminate|].
    rewrite ?str_app_cons in H. simpl in H. injection H as Hc Hq.
    destruct (IH _ Hq) as (qa & qb & -> & <- & <-).
    exists (String d qa), qb. by rewrite ?str_app_cons, <- Hc.
Qed.

(** *** Whitespace *)

Lemma all_space_app s t : all_space (s ++ t) <-> all_space s /\ all_space t.
Proof.
  induction s as [|c s IH]; simpl.
  - rewrite str_app_empty_l. tauto.
  - rewrite IH. tauto.
Qed.

Lemma lstrip_all_space_app a s : all_space a -> lstrip (a ++ s) = lstrip s.
Proof.
  induction a as [|c a IH]; simpl; [done|].
  intros [Hc Ha]. rewrite Hc. auto.
Qed.

Lemma rstrip_empty_iff s : rstrip s = "" <-> all_space s.
Proof.
  induction s as [|c s IH]; simpl; [tauto|].
  destruct (rstrip s) as [|d r] eqn:Hr.
  - destruct (is_space c); split; try easy.
    intros _. split; [done|]. by apply IH.
  - split; [discriminate|]. intros [_ Hs]. apply IH in Hs. discriminate.
Qed.

Lemma lstrip_split s : exists a, s = a ++ lstrip s /\ all_space a.
Proof.
  induction s as [|c s (a & IH & Ha)]; simpl.
  - by exists "".
  - destruct (is_space c) eqn:Hc.
    + exists (String c a). rewrite ?str_app_cons, <- IH. by repeat split.
    + by exists "".
Qed.

Lemma rstrip_app_all_space s b : all_space b -> rstrip (s ++ b) = rstrip s.
Proof.
  intros Hb. induction s as [|c s IH].
  - rewrite str_app_empty_l. by apply rstrip_empty_iff.
  - rewrite ?str_app_cons. simpl. by rewrite IH.
Qed.

Lemma strip_app_all_space_r s b : all_space b -> strip (s ++ b) = strip s.
Proof.
  intros Hb. unfold strip. induction s as [|c s IH].
  - rewrite str_app_empty_l. simpl. apply rstrip_empty_iff.
    destruct (lstrip_split b) as (a & Hs & _).
    rewrite Hs in Hb. by apply all_space_app in Hb as [_ ?].
  - rewrite ?str_app_cons. simpl. destruct (is_space c); [done|].
    rewrite <- str_app_cons. by apply rstrip_app_all_space.
Qed.

(** Surrounding whitespace does not survive [strip]. *)
Lemma strip_padding a s b :
  all_space a -> all_space b -> strip (a ++ s ++ b) = strip s.
Proof.
  intros Ha Hb. transitivity (strip (s ++ b)).
  - unfold strip. by rewrite lstrip_all_space_app.
  - by apply strip_app_all_space_r.
Qed.

(** A text is blank for [strip] exactly when all of it is whitespace. *)
Lemma strip_empty_iff s : strip s = "" <-> all_space s.
Proof.
  unfold strip. rewrite rstrip_empty_iff. split.
  - intros H. destruct (lstrip_split s) as (a & Hs & Ha).
    rewrite Hs. by apply all_space_app.
  - intros H. destruct (lstrip_split s) as (a & Hs & Ha).
    rewrite Hs in H. by apply all_space_app in H as [_ ?].
Qed.

Lemma truthy_strip_false s : truthy (strip s) = false <-> all_space s.
Proof.
  rewrite <- strip_empty_iff. destruct (strip s); simpl; split; congruence.
Qed.

Lemma truthy_strip_true s : truthy (strip s) = true <-> ~ all_space s.
Proof.
  rewrite <- truthy_strip_false. destruct (truthy (strip s)); split; congruence.
Qed.

Lemma rstrip_split s : exists b, s = rstrip s ++ b /\ all_space b.
Proof.
  induction s as [|c s (b & IH & Hb)]; [by exists ""|].
  simpl. destruct (rstrip s) as [|d r] eqn:Hr.
  - rewrite str_app_empty_l in IH. subst b.
    destruct (is_space c) eqn:Hc.
    + exists (String c s). by rewrite str_app_empty_l.
    + exists s. by rewrite str_app_cons, str_app_empty_l.
  - exists b. split; [|done]. rewrite (str_app_cons c), <- IH. done.
Qed.

(** A text is its stripped form between two runs of whitespace. *)
Lemma strip_split s :
  exists a b, s = a ++ strip s ++ b /\ all_space a /\ all_space b.
Proof.
  destruct (lstrip_split s) as (a & Ha & Hsa).
  destruct (rstrip_split (lstrip s)) as (b & Hb & Hsb).
  exists a, b. unfold strip. by rewrite <- Hb, <- Ha.
Qed.

(** [strip] and [lower] respect equality up to letter case. *)
Lemma same_letters_lstrip s t :
  same_letters s t -> same_letters (lstrip s) (lstrip t).
Proof.
  revert t. induction s as [|c s IH]; intros [|d t]; simpl; try easy.
  intros [Hc Hs]. rewrite (same_case_same_space _ _ Hc).
  destruct (is_space d); simpl; auto.
Qed.

Lemma same_letters_rstrip s t :
  same_letters s t -> same_letters (rstrip s) (rstrip t).
Proof.
  revert t. induction s as [|c s IH]; intros [|d t]; simpl; try easy.
  intros [Hc Hs]. specialize (IH _ Hs). rewrite (same_case_same_space _ _ Hc).
  destruct (rstrip s), (rstrip t); simpl in *; try easy.
  destruct (is_space d); simpl; auto.
Qed.

Lemma same_letters_strip s t :
  same_letters s t -> same_letters (strip s) (strip t).
Proof. intros H. by apply same_letters_rstrip, same_letters_lstrip. Qed.

(** *** Substrings *)

Lemma prefix_spec pat s :
  String.prefix pat s = true <-> exists post, s = pat ++ post.
Proof.
  revert s. induction pat as [|c pat IH]; intros s.
  - destruct s; simpl; split; eauto.
  - destruct s as [|d s]; simpl.
    + split; [discriminate|]. intros [post H]. discriminate.
    + destruct (ascii_dec c d) as [->|Hne].
      * rewrite IH. split; intros [post H]; exists post.
        -- by rewrite ?str_app_cons, <- H.
        -- rewrite ?str_app_cons in H. by injection H.
      * split; [discriminate|]. intros [post H].
        rewrite ?str_app_cons in H. injection H as H1 H2. congruence.
Qed.

(** [pat in s] holds exactly when [s] is some text, then [pat], then some
    text. *)
Lemma contains_spec pat s :
  contains pat s = true <-> exists pre post, s = pre ++ pat ++ post.
Proof.
  induction s as [|c s IH].
  - cbn [contains]. rewrite orb_false_r, prefix_spec. split.
    + intros [post H]. by exists "", post.
    + intros (pre & post & H). destruct pre as [|d pre]; [by exists post|].
      rewrite ?str_app_cons in H. discriminate.
  - cbn [contains]. rewrite orb_true_iff, prefix_spec, IH. split.
    + intros [[post H]|(pre & post & H)].
      * by exists "", post.
      * exists (String c pre), post. by rewrite ?str_app_cons, <- H.
    + intros (pre & post & H). destruct pre as [|d pre].
      * left. by exists post.
      * right. rewrite ?str_app_cons in H. injection H as _ H. by exists pre, post.
Qed.

(** For a pattern without capitals, [pat in s.lower()] is occurrence up to
    letter case. *)
Lemma contains_lower_spec pat s :
  lower pat = pat ->
  contains pat (lower s) = true <-> occurs_ignoring_case pat s.
Proof.
  intros Hpat. rewrite contains_spec. unfold occurs_ignoring_case. split.
  - intros (pre & post & H).
    apply lower_eq_app in H as (qa & qrest & -> & _ & H).
    apply lower_eq_app in H as (qm & qb & -> & Hm & _).
    exists qa, qm, qb. split; [done|].
    apply same_letters_lower. by rewrite Hm, Hpat.
  - intros (pre & mid & post & -> & H).
    apply same_letters_lower in H. rewrite Hpat in H.
    exists (lower pre), (lower post). by rewrite !lower_app, H.
Qed.

End PyStrFacts.

(** ** Facts about [app.py] *)
Module AppFacts.
Import PyStr PyStrFacts App.
Local Open Scope list_scope.

Lemma video_patterns_lowercase pattern :
  In pattern video_patterns -> lower pattern = pattern.
Proof. simpl. intros [<-|[<-|[]]]; reflexivity. Qed.

(** The auto-detection test is the match against the host patterns. *)
Lemma is_video_url_spec query : is_video_url query = true <-> video_url_text query.
Proof.
  unfold is_video_url, video_url_text. rewrite existsb_exists.
  split; intros (pattern & Hin & H); exists pattern; split; try done.
  - by apply contains_lower_spec; [apply video_patterns_lowercase|].
  - by apply contains_lower_spec; [apply video_patterns_lowercase|].
Qed.

Lemma is_video_url_false query : is_video_url query = false <-> ~ video_url_text query.
Proof.
  rewrite <- is_video_url_spec. destruct (is_video_url query); split; congruence.
Qed.

Lemma auto_detect_auto query :
  auto_detect "Auto" query = if is_video_url query then "YouTube" else "Tavily".
Proof. reflexivity. Qed.

Lemma auto_detect_explicit provider query :
  provider <> "Auto" -> auto_detect provider query = provider.
Proof.
  intros H. unfold auto_detect.
  destruct (String.eqb_spec provider "Auto"); congruence.
Qed.

Lemma search_provider_of_explicit name p :
  In (name, p) explicit_providers ->
  search_provider_of name = Some p /\ name <> "Auto".
Proof.
  simpl. intros [H|[H|[H|[]]]]; injection H as <- <-; split; (reflexivity || discriminate).
Qed.

Lemma provider_options_cases name :
  In name provider_options ->
  name = "Auto" \/ exists p, In (name, p) explicit_providers.
Proof.
  simpl. intros [<-|[<-|[<-|[<-|[]]]]]; [by left|right..].
  - exists TAVILY. auto.
  - exists GROQ. auto.
  - exists YOUTUBE. auto.
Qed.

(** The relation [routes] is the graph of [auto_detect]. *)
Lemma routes_auto_detect provider query p :
  routes provider query p <-> auto_detect provider query = p.
Proof.
  split.
  - intros H. destruct H as [provider query Hne|query Hex|query Hall].
    + by apply auto_detect_explicit.
    + rewrite auto_detect_auto.
      assert (is_video_url query = true) as ->; [|done].
      apply existsb_exists. destruct Hex as (pattern & ? & ?). by exists pattern.
    + rewrite auto_detect_auto.
      destruct (is_video_url query) eqn:Hv; [|done].
      apply existsb_exists in Hv as (pattern & Hin & Hc).
      rewrite (Hall _ Hin) in Hc. discriminate.
  - intros <-. destruct (String.eqb_spec provider "Auto") as [->|Hne].
    + rewrite auto_detect_auto. destruct (is_video_url query) eqn:Hv.
      * apply route_video. apply existsb_exists in Hv as (pattern & ? & ?).
        by exists pattern.
      * apply route_default. intros pattern Hin.
        destruct (contains pattern (lower query)) eqn:Hc; [|done].
        assert (is_video_url query = true) as Hv'; [|congruence].
        apply existsb_exists. by exists pattern.
    + rewrite auto_detect_explicit by done. by apply route_explicit.
Qed.

Section WithService.

Variable Svc : Type.
Variable Exn : Type.
Variable search : SearchQuery.t -> bool -> Svc -> (Exn + list SearchResult.t) * Svc.

Lemma service_calls_app (es1 es2 : list (Event Exn)) :
  service_calls (es1 ++ es2) = service_calls es1 ++ service_calls es2.
Proof.
  induction es1 as [|e es1 IH]; [done|].
  destruct e; simpl; by rewrite ?IH.
Qed.

(** A blank query: the function stops at the guard. *)
Lemma perform_search_blank query provider num_results domains (w : World Svc Exn) :
  all_space query ->
  perform_search search query provider num_results domains w
  = emit StErrorEnterQuery w.
Proof.
  intros H. unfold perform_search.
  apply truthy_strip_false in H. by rewrite H.
Qed.

(** A non-blank query: the query is built from the stripped text, the
    mapped provider, the domains and the limit, and handed to the service
    once, with the cache on. *)
Lemma perform_search_nonblank query provider num_results domains (w : World Svc Exn) :
  ~ all_space query ->
  let sq := SearchQuery.make (strip query) domains
                             (search_provider_of provider) num_results in
  exists tail,
    events (perform_search search query provider num_results domains w)
    = events w ++ [NewSearchQuery sq; StSpinner provider; ServiceCall sq true] ++ tail
    /\ service_calls tail = [].
Proof.
  intros H sq. unfold perform_search.
  apply truthy_strip_true in H. rewrite H. cbn [negb].
  fold sq. cbn zeta.
  destruct (search sq true _) as [[e|results] s'].
  - exists [LogSearchFailed e; StErrorSearchFailed e]. split; [|done].
    cbn. by rewrite <- !app_assoc.
  - destruct results as [|r results].
    + exists [StWarningNoResults]. split; [|done]. cbn. by rewrite <- !app_assoc.
    + exists [StSuccessFound (length (r :: results))]. split; [|done].
      cbn. by rewrite <- !app_assoc.
Qed.

Lemma perform_search_calls query provider num_results domains (w : World Svc Exn) :
  ~ all_space query ->
  service_calls (events (perform_search search query provider num_results domains w))
  = service_calls (events w)
    ++ [(SearchQuery.make (strip query) domains
                          (search_provider_of provider) num_results, true)].
Proof.
  intros H.
  destruct (perform_search_nonblank query provider num_results domains w H)
    as (tail & -> & Htail).
  rewrite !service_calls_app, Htail. reflexivity.
Qed.

(** The form dispatches exactly when the button is pressed on a non-blank
    query, and then with the provider [auto_detect] gives. *)
Lemma render_search_interface_calls ws (w : World Svc Exn) :
  service_calls (events (render_search_interface search ws w))
  = service_calls (events w)
    ++ (if w_search_button ws && truthy (strip (w_query ws)) then
          [(SearchQuery.make (strip (w_query ws)) (w_domains ws)
              (search_provider_of (auto_detect (w_provider ws) (w_query ws)))
              (w_num_results ws), true)]
        else []).
Proof.
  unfold render_search_interface.
  destruct (w_search_button ws); cbn [andb]; [|by rewrite app_nil_r].
  destruct (truthy (strip (w_query ws))) eqn:Ht; [|by rewrite app_nil_r].
  apply perform_search_calls. by apply truthy_strip_true.
Qed.

End WithService.

End AppFacts.

(** ** Facts about the search service *)
Module ServiceFacts.
Import PyStr PyStrFacts Service.
Local Open Scope list_scope.

(** *** Deduplication *)
Section Dedupe.

Context {A K : Type} `{EqDecision K} (key : A -> K).

Lemma dedupe_from_sublist seen (rs : list A) :
  dedupe_from key seen rs `sublist_of` rs.
Proof.
  revert seen. induction rs as [|r rs IH]; intros seen; simpl; [constructor|].
  case_decide; [apply sublist_cons|apply sublist_skip]; apply IH.
Qed.

Lemma dedupe_from_unseen seen (rs : list A) r :
  r ∈ dedupe_from key seen rs -> key r ∉ seen.
Proof.
  revert seen. induction rs as [|a rs IH]; intros seen; simpl.
  - intros Hin. by apply elem_of_nil in Hin.
  - case_decide as Ha; [apply IH|].
    intros [->|Hin]%elem_of_cons; [done|].
    apply IH in Hin. set_solver.
Qed.

Lemma dedupe_from_NoDup seen (rs : list A) :
  NoDup (key <$> dedupe_from key seen rs).
Proof.
  revert seen. induction rs as [|a rs IH]; intros seen; simpl; [constructor|].
  case_decide as Ha; [apply IH|].
  rewrite fmap_cons. apply NoDup_cons. split; [|apply IH].
  intros (r & Heq & Hin)%list_elem_of_fmap.
  apply dedupe_from_unseen in Hin. rewrite <- Heq in Hin. set_solver.
Qed.

(** What is kept is the first occurrence of each key not seen before. *)
Lemma dedupe_from_first seen (rs : list A) r :
  r ∈ dedupe_from key seen rs <->
  exists pre post, rs = pre ++ r :: post /\ (key r ∉ seen) /\ (key r ∉ (key <$> pre)).
Proof.
  revert seen. induction rs as [|a rs IH]; intros seen; simpl.
  - split.
    + intros Hin. by apply elem_of_nil in Hin.
    + intros (pre & post & Heq & _). by destruct pre.
  - case_decide as Ha.
    + rewrite IH. split.
      * intros (pre & post & -> & Hs & Hp). exists (a :: pre), post.
        split; [done|]. split; [done|].
        rewrite fmap_cons, not_elem_of_cons. split; [|done]. congruence.
      * intros (pre & post & Heq & Hs & Hp). destruct pre as [|b pre].
        -- simpl in Heq. injection Heq as -> ->. done.
        -- simpl in Heq. injection Heq as -> ->. exists pre, post.
           rewrite fmap_cons, not_elem_of_cons in Hp. tauto.
    + rewrite elem_of_cons, IH. split.
      * intros [->|(pre & post & -> & Hs & Hp)].
        -- exists [], rs. split; [done|]. split; [done|]. apply not_elem_of_nil.
        -- exists (a :: pre), post. rewrite not_elem_of_cons in Hs.
           split; [done|]. split; [tauto|].
           rewrite fmap_cons, not_elem_of_cons. tauto.
      * intros (pre & post & Heq & Hs & Hp). destruct pre as [|b pre].
        -- simpl in Heq. injection Heq as -> ->. by left.
        -- simpl in Heq. injection Heq as -> ->. right. exists pre, post.
           rewrite fmap_cons, not_elem_of_cons in Hp.
           rewrite not_elem_of_cons. tauto.
Qed.

(** No key of the input is lost. *)
Lemma dedupe_from_complete seen (rs : list A) r :
  r ∈ rs -> key r ∉ seen ->
  exists r', r' ∈ dedupe_from key seen rs /\ key r' = key r.
Proof.
  revert seen. induction rs as [|a rs IH]; intros seen Hin Hs; simpl.
  - by apply elem_of_nil in Hin.
  - apply elem_of_cons in Hin as [->|Hin].
    + rewrite decide_False by done. exists a. split; [left|done].
    + case_decide as Ha; [by apply IH|].
      destruct (decide (key r = key a)) as [Heq|Hne].
      * exists a. split; [left|done].
      * destruct (IH (key a :: seen) Hin) as (r' & Hin' & Hk).
        { rewrite not_elem_of_cons. tauto. }
        exists r'. split; [by right|done].
Qed.

(** Without repeated keys nothing is dropped. *)
Lemma dedupe_from_id seen (rs : list A) :
  NoDup (key <$> rs) -> (forall r, r ∈ rs -> key r ∉ seen) ->
  dedupe_from key seen rs = rs.
Proof.
  revert seen. induction rs as [|a rs IH]; intros seen Hnd Hs; simpl; [done|].
  rewrite fmap_cons in Hnd. apply NoDup_cons in Hnd as [Ha Hnd].
  rewrite decide_False by (apply Hs; left).
  f_equal. apply IH; [done|]. intros r Hin.
  rewrite not_elem_of_cons. split; [|apply Hs; by right].
  intros Heq. apply Ha. rewrite <- Heq. by apply list_elem_of_fmap_2.
Qed.

End Dedupe.

(** *** The cache store *)
Section Store.

Variable ttl : Z.

Lemma expired_iff now e : expired ttl now e = true <-> (created e + ttl < now)%Z.
Proof. unfold expired. rewrite Z.ltb_lt. lia. Qed.

Lemma get_Some (c : gmap string CacheEntry) now fp e :
  get ttl c now fp = Some e <-> c !! fp = Some e /\ expired ttl now e = false.
Proof.
  unfold get. destruct (c !! fp) as [e'|]; [|split; [done|by intros [? _]]].
  destruct (expired ttl now e') eqn:He; split.
  - done.
  - intros [[= ->] ?]. congruence.
  - intros [= ->]. done.
  - intros [[= ->] _]. done.
Qed.

Lemma get_put (c : gmap string CacheEntry) now fp rs tag :
  put c now fp rs tag !! fp
  = Some {| entry_results := rs; created := now; entry_provider := tag |}.
Proof. unfold put. apply lookup_insert_eq. Qed.

Lemma cleanup_lookup (c : gmap string CacheEntry) now fp :
  (cleanup ttl c now).1 !! fp
  = match c !! fp with
    | Some e => if expired ttl now e then None else Some e
    | None => None
    end.
Proof.
  unfold cleanup. cbn [fst]. rewrite map_lookup_filter.
  destruct (c !! fp) as [e|]; [|done]. simpl.
  destruct (expired ttl now e); by case_guard.
Qed.

(** The count is the number of entries past their time-to-live. *)
Lemma cleanup_count (c : gmap string CacheEntry) now :
  (cleanup ttl c now).2
  = size (filter (fun kv => (created kv.2 + ttl < now)%Z) c).
Proof.
  unfold cleanup. cbn [snd].
  set (P := fun kv : string * CacheEntry => expired ttl now kv.2 = false).
  rewrite <- (map_filter_union_complement P c) at 1.
  rewrite map_size_disj_union by apply map_disjoint_filter_complement.
  assert (filter (fun kv => ¬ P kv) c
          = filter (fun kv => (created kv.2 + ttl < now)%Z) c) as ->; [|lia].
  apply map_filter_ext. intros fp e _. unfold P.
  cbn [snd]. rewrite <- expired_iff.
  destruct (expired ttl now e); split; congruence.
Qed.

End Store.

(** *** The fingerprint *)

Lemma normalize_text_variants s t :
  same_up_to_case_and_padding s t -> normalize_text s = normalize_text t.
Proof.
  intros (a & s' & b & a' & t' & b' & -> & -> & Ha & Hb & Ha' & Hb' & Hst).
  unfold normalize_text. rewrite !strip_padding by done.
  by apply same_letters_lower, same_letters_strip.
Qed.

(** Two texts have the same normalized form exactly when they agree up to
    letter case and surrounding whitespace. *)
Lemma normalize_text_eq_iff s t :
  normalize_text s = normalize_text t <-> same_up_to_case_and_padding s t.
Proof.
  split; [|apply normalize_text_variants].
  intros Heq. unfold normalize_text in Heq.
  destruct (strip_split s) as (a & b & Hs & Ha & Hb).
  destruct (strip_split t) as (a' & b' & Ht & Ha' & Hb').
  exists a, (strip s), b, a', (strip t), b'.
  split_and!; try done. by apply same_letters_lower.
Qed.

(** The key of the deduplication identifies the items. *)
Lemma same_item_key r1 r2 : same_item r1 r2 <-> dedup_key r1 = dedup_key r2.
Proof.
  unfold same_item, dedup_key.
  destruct (SearchResult.url r1) as [u1|], (SearchResult.url r2) as [u2|].
  - split; [by intros ->|by intros [= ->]].
  - split; [done|discriminate].
  - split; [done|discriminate].
  - rewrite <- normalize_text_eq_iff. split; [by intros ->|by intros [= ->]].
Qed.

Lemma sort_domains_perm ds : sort_domains ds ≡ₚ ds.
Proof. apply merge_sort_Permutation. Qed.

(** The order in which the filters were picked does not matter. *)
Lemma sort_domains_order ds1 ds2 :
  ds1 ≡ₚ ds2 -> sort_domains ds1 = sort_domains ds2.
Proof.
  intros Hp. apply (Sorted_unique String.le).
  - apply Sorted_merge_sort, _.
  - apply Sorted_merge_sort, _.
  - by rewrite !sort_domains_perm.
Qed.

Lemma filters_differ_sorted ds1 ds2 :
  filters_differ ds1 ds2 -> sort_domains ds1 <> sort_domains ds2.
Proof.
  intros (d & Hd) Heq.
  assert (ds1 ≡ₚ ds2) as Hp.
  { by rewrite <- (sort_domains_perm ds1), Heq, sort_domains_perm. }
  rewrite <- !list_elem_of_In in Hd. rewrite Hp in Hd. tauto.
Qed.

Lemma canonical_variants q1 q2 :
  surface_variants q1 q2 -> canonical q1 = canonical q2.
Proof.
  intros (Ht & Hd & Hp & Hl). unfold canonical.
  by rewrite (normalize_text_variants _ _ Ht), Hd, Hp, Hl.
Qed.

Lemma canonical_filters_differ q1 q2 :
  filters_differ (SearchQuery.domains q1) (SearchQuery.domains q2) ->
  canonical q1 <> canonical q2.
Proof.
  intros Hd Heq. apply filters_differ_sorted in Hd. apply Hd.
  unfold canonical in Heq. by injection Heq.
Qed.

(** *** The router *)

(** The router of the service and the form agree: an explicit selection is
    used alone, and a query without one is routed as the form routes
    "Auto". *)
Lemma select_agrees_with_form q :
  match SearchQuery.provider q with
  | Some p => select q = [p]
  | None =>
      exists p, select q = [p] /\
        App.search_provider_of (App.auto_detect "Auto" (SearchQuery.query q)) = Some p
  end.
Proof.
  unfold select. destruct (SearchQuery.provider q) as [p|]; [done|].
  rewrite AppFacts.auto_detect_auto.
  destruct (App.is_video_url (SearchQuery.query q)); eauto.
Qed.

(** *** The orchestrator *)
Section Orchestrator.

Variable Native : Type.
Variable fetch : SearchProvider -> SearchQuery.t -> ErrorKind + list Native.
Variable normalize : SearchProvider -> Native -> SearchResult.t.
Variable router : SearchQuery.t -> list SearchProvider.
Variable hash : SearchQuery.t -> string.
Variable ttl : Z.
Variable cache_tag : list SearchProvider -> SearchProvider.

Lemma fan_in_succeeded ps q :
  succeeded (fan_in fetch normalize ps q) = List.filter (succeeds fetch q) ps.
Proof.
  induction ps as [|p ps IH]; [done|].
  cbn [fan_in List.filter]. unfold succeeds at 1.
  destruct (fetch p q); cbn; by rewrite IH.
Qed.

Lemma fan_in_collected ps q :
  collected (fan_in fetch normalize ps q)
  = flat_map (provider_results fetch normalize q) (List.filter (succeeds fetch q) ps).
Proof.
  induction ps as [|p ps IH]; [done|].
  cbn [fan_in List.filter]. unfold succeeds at 1.
  destruct (fetch p q) eqn:Hf; cbn; [done|].
  unfold provider_results at 1. by rewrite Hf, IH.
Qed.

(** The failure record names each failed provider once, in dispatch order,
    with the kind its adapter failed with. *)
Lemma fan_in_failures ps q :
  map fst (failures (fan_in fetch normalize ps q))
  = List.filter (fun p => negb (succeeds fetch q p)) ps
  /\ Forall (fun pe => fetch pe.1 q = inl pe.2) (failures (fan_in fetch normalize ps q)).
Proof.
  induction ps as [|p ps [IH1 IH2]]; [by split|].
  cbn [fan_in List.filter]. unfold succeeds at 1.
  destruct (fetch p q) eqn:Hf; cbn; [|done].
  split; [by rewrite IH1|]. by constructor.
Qed.

Lemma filter_all_fail ps q :
  Forall (fun p => succeeds fetch q p = false) ps ->
  List.filter (succeeds fetch q) ps = []
  /\ List.filter (fun p => negb (succeeds fetch q p)) ps = ps.
Proof.
  induction 1 as [|p ps Hp _ [IH1 IH2]]; [done|].
  cbn. by rewrite Hp, IH1, IH2.
Qed.

Lemma fan_in_failure_recorded ps q p kind :
  In p ps -> fetch p q = inl kind ->
  In (p, kind) (failures (fan_in fetch normalize ps q)).
Proof.
  intros Hin Hf. induction ps as [|p' ps IH]; [done|].
  cbn [fan_in]. destruct Hin as [->|Hin].
  - rewrite Hf. by left.
  - destruct (fetch p' q); cbn; auto.
Qed.

Lemma filter_succeeds_idem ps q :
  List.filter (succeeds fetch q) (List.filter (succeeds fetch q) ps)
  = List.filter (succeeds fetch q) ps.
Proof.
  induction ps as [|p ps IH]; [done|].
  cbn. destruct (succeeds fetch q p) eqn:Hp; [|done].
  cbn. by rewrite Hp, IH.
Qed.

(** On the fetch path the cache lookup plays no part. *)
Lemma search_fetch_path q use_cache now c :
  cache_miss hash ttl q use_cache now c ->
  search fetch normalize router hash ttl cache_tag q use_cache now c
  = let gathered := fan_in fetch normalize (router q) q in
    let results :=
      take (Z.to_nat (SearchQuery.limit q)) (dedupe (collected gathered)) in
    match succeeded gathered with
    | [] => (AllProvidersFailed (failures gathered), c)
    | _ :: _ =>
        (Results results (failures gathered),
         put c now (fingerprint hash q) results (cache_tag (succeeded gathered)))
    end.
Proof.
  intros [->|Hmiss]; unfold search; [done|].
  destruct use_cache; [|done]. by rewrite Hmiss.
Qed.

End Orchestrator.

End ServiceFacts.

(** ** The search form: routing and the blank-query guard *)
Module SearchForm.
Import PyStr PyStrFacts App AppFacts.
Local Open Scope list_scope.

(** C1. With "Auto" selected, the routing decision depends on the text
    alone: a text in which [youtube.com] or [youtu.be] occurs, letter case
    ignored, goes to the transcript provider (YouTube), every other text
    to web search (Tavily); the text-analysis provider (Groq) is never the
    outcome.  When the form dispatches, the query handed to the service
    carries that provider. *)
Theorem auto_detection_routes query :
  (video_url_text query -> auto_detect "Auto" query = "YouTube") /\
  (~ video_url_text query -> auto_detect "Auto" query = "Tavily") /\
  search_provider_of (auto_detect "Auto" query) <> Some GROQ /\
  forall (Svc Exn : Type) search ws (w : World Svc Exn),
    w_query ws = query -> w_provider ws = "Auto" ->
    w_search_button ws = true -> ~ all_space query ->
    exists sq,
      service_calls (events (render_search_interface search ws w))
      = service_calls (events w) ++ [(sq, true)]
      /\ (video_url_text query -> SearchQuery.provider sq = Some YOUTUBE)
      /\ (~ video_url_text query -> SearchQuery.provider sq = Some TAVILY)
      /\ SearchQuery.provider sq <> Some GROQ.
Proof.
  assert (Hv : video_url_text query -> auto_detect "Auto" query = "YouTube").
  { intros H%is_video_url_spec. by rewrite auto_detect_auto, H. }
  assert (Hn : ~ video_url_text query -> auto_detect "Auto" query = "Tavily").
  { intros H%is_video_url_false. by rewrite auto_detect_auto, H. }
  assert (Hg : search_provider_of (auto_detect "Auto" query) <> Some GROQ).
  { rewrite auto_detect_auto. by destruct (is_video_url query). }
  repeat split; try done.
  intros Svc Exn search ws w Hq Hp Hb Hblank.
  eexists. rewrite render_search_interface_calls, Hb, Hq, Hp.
  apply truthy_strip_true in Hblank. rewrite Hblank. cbn [andb SearchQuery.provider].
  split; [reflexivity|]. cbn [SearchQuery.provider]. repeat split.
  - intros H. by rewrite (Hv H).
  - intros H. by rewrite (Hn H).
  - done.
Qed.

Lemma auto_detection_routes_witness :
  auto_detect "Auto" Samples.video_query = "YouTube" /\
  auto_detect "Auto" Samples.plain_query = "Tavily" /\
  exists sq,
    service_calls (events (render_search_interface Samples.search_service
                             (Samples.form Samples.video_query "Auto")
                             Samples.fresh_world))
    = [(sq, true)]
    /\ SearchQuery.provider sq = Some YOUTUBE.
Proof.
  assert (Hv : video_url_text Samples.video_query).
  { apply is_video_url_spec. reflexivity. }
  assert (Hp : ~ video_url_text Samples.plain_query).
  { apply is_video_url_false. reflexivity. }
  split; [|split].
  - by apply (auto_detection_routes Samples.video_query).
  - by apply (auto_detection_routes Samples.plain_query).
  - destruct (auto_detection_routes Samples.video_query) as (_ & _ & _ & H).
    destruct (H _ _ Samples.search_service
                (Samples.form Samples.video_query "Auto") Samples.fresh_world)
      as (sq & Hcalls & Hsq & _); try reflexivity.
    { intros Hs%truthy_strip_false. discriminate. }
    exists sq. split; [exact Hcalls|by apply Hsq].
Defined.

(** C6. An explicit selection is used as it is: for each of the names
    "Tavily", "Groq" and "YouTube", whatever the text looks like (a video
    URL too), the auto-detection leaves the selection alone and the query
    handed to the service carries exactly the provider of that name. *)
Theorem explicit_selection_honoured name p query :
  In (name, p) explicit_providers ->
  auto_detect name query = name /\
  forall (Svc Exn : Type) search,
    (forall num_results domains (w : World Svc Exn),
       ~ all_space query ->
       service_calls (events (perform_search search query name num_results domains w))
       = service_calls (events w)
         ++ [(SearchQuery.make (strip query) domains (Some p) num_results, true)]) /\
    (forall ws (w : World Svc Exn),
       w_query ws = query -> w_provider ws = name ->
       w_search_button ws = true -> ~ all_space query ->
       service_calls (events (render_search_interface search ws w))
       = service_calls (events w)
         ++ [(SearchQuery.make (strip query) (w_domains ws) (Some p)
                               (w_num_results ws), true)]).
Proof.
  intros [Hp Hne]%search_provider_of_explicit.
  split; [by apply auto_detect_explicit|].
  intros Svc Exn search. split.
  - intros num_results domains w Hblank.
    by rewrite perform_search_calls, Hp.
  - intros ws w Hq Hn Hb Hblank.
    rewrite render_search_interface_calls, Hb, Hq, Hn.
    apply truthy_strip_true in Hblank. rewrite Hblank. cbn [andb].
    by rewrite auto_detect_explicit, Hp.
Qed.

Lemma explicit_selection_honoured_witness :
  auto_detect "Tavily" Samples.video_query = "Tavily" /\
  service_calls (events (render_search_interface Samples.search_service
                           (Samples.form Samples.video_query "Tavily")
                           Samples.fresh_world))
  = [(SearchQuery.make Samples.video_query [] (Some TAVILY) 10, true)] /\
  service_calls (events (render_search_interface Samples.search_service
                           (Samples.form Samples.video_query "Groq")
                           Samples.fresh_world))
  = [(SearchQuery.make Samples.video_query [] (Some GROQ) 10, true)].
Proof.
  assert (Hnb : ~ all_space Samples.video_query).
  { intros Hs%truthy_strip_false. discriminate. }
  split; [|split].
  - apply (explicit_selection_honoured "Tavily" TAVILY). simpl. auto.
  - apply (explicit_selection_honoured "Tavily" TAVILY Samples.video_query);
      [simpl; auto|reflexivity..|exact Hnb].
  - apply (explicit_selection_honoured "Groq" GROQ Samples.video_query);
      [simpl; auto|reflexivity..|exact Hnb].
Defined.

(** C8. Routing is total and deterministic: for every select-box value and
    every text the rules of the form relate exactly one provider name to
    them, the one [auto_detect] returns; for the values the select box
    offers that name is the name of a provider; and a dispatching run hands
    the service the same query, with that provider, whatever the session,
    the service state and the clock are. *)
Theorem routing_total_deterministic :
  (forall provider query, exists p, routes provider query p) /\
  (forall provider query p1 p2,
     routes provider query p1 -> routes provider query p2 -> p1 = p2) /\
  (forall provider query p,
     routes provider query p -> auto_detect provider query = p) /\
  (forall provider query,
     In provider provider_options ->
     exists p sp, routes provider query p /\ search_provider_of p = Some sp) /\
  (forall (Svc Exn : Type) search ws (w1 w2 : World Svc Exn),
     w_search_button ws = true -> ~ all_space (w_query ws) ->
     exists sq p,
       service_calls (events (render_search_interface search ws w1))
       = service_calls (events w1) ++ [(sq, true)]
       /\ service_calls (events (render_search_interface search ws w2))
          = service_calls (events w2) ++ [(sq, true)]
       /\ routes (w_provider ws) (w_query ws) p
       /\ SearchQuery.provider sq = search_provider_of p).
Proof.
  split; [|split; [|split; [|split]]].
  - intros provider query. exists (auto_detect provider query).
    by apply routes_auto_detect.
  - intros provider query p1 p2 H1%routes_auto_detect H2%routes_auto_detect.
    congruence.
  - intros provider query p H. by apply routes_auto_detect.
  - intros provider query Hopt. exists (auto_detect provider query).
    destruct (provider_options_cases _ Hopt) as [->|(sp & Hsp)].
    + rewrite auto_detect_auto. destruct (is_video_url query) eqn:Hv.
      * exists YOUTUBE. split; [|done].
        apply routes_auto_detect. by rewrite auto_detect_auto, Hv.
      * exists TAVILY. split; [|done].
        apply routes_auto_detect. by rewrite auto_detect_auto, Hv.
    + apply search_provider_of_explicit in Hsp as [Hsp Hne].
      exists sp. rewrite auto_detect_explicit by done.
      split; [by apply route_explicit|done].
  - intros Svc Exn search ws w1 w2 Hb Hblank.
    apply truthy_strip_true in Hblank.
    eexists. exists (auto_detect (w_provider ws) (w_query ws)).
    rewrite !render_search_interface_calls, Hb, Hblank. cbn [andb].
    split; [reflexivity|]. split; [reflexivity|].
    split; [by apply routes_auto_detect|reflexivity].
Qed.

Lemma routing_total_deterministic_witness :
  auto_detect "Auto" Samples.plain_query = "Tavily" /\
  exists sq,
    service_calls (events (render_search_interface Samples.search_service
                             (Samples.form Samples.plain_query "Auto")
                             Samples.fresh_world))
    = [(sq, true)]
    /\ SearchQuery.provider sq = Some TAVILY.
Proof.
  destruct routing_total_deterministic as (_ & Hdet & Hfun & _ & Hrun).
  assert (Hr : routes "Auto" Samples.plain_query "Tavily").
  { apply route_default. intros pattern [<-|[<-|[]]]; reflexivity. }
  split; [exact (Hfun _ _ _ Hr)|].
  destruct (Hrun _ _ Samples.search_service
              (Samples.form Samples.plain_query "Auto")
              Samples.fresh_world Samples.fresh_world)
    as (sq & p & Hcalls & _ & Hp & Hsq); [reflexivity|..].
  { intros Hs%truthy_strip_false. discriminate. }
  exists sq. split; [exact Hcalls|].
  by rewrite Hsq, (Hdet _ _ _ _ Hp Hr).
Defined.

(** C9. Every query the form hands to the service names a provider: for
    each value of the provider select box, the queries dispatched by a run
    of the form have a provider that is not [None], and with "Auto"
    selected it is YouTube or Tavily.  A run with the button pressed on a
    non-blank text dispatches one query. *)
Theorem dispatched_query_names_provider
    (Svc Exn : Type) search ws (w : World Svc Exn) :
  In (w_provider ws) provider_options ->
  exists dispatched,
    service_calls (events (render_search_interface search ws w))
    = service_calls (events w) ++ dispatched
    /\ Forall (fun call =>
         SearchQuery.provider call.1 <> None /\
         (w_provider ws = "Auto" ->
          SearchQuery.provider call.1 = Some YOUTUBE \/
          SearchQuery.provider call.1 = Some TAVILY)) dispatched
    /\ (w_search_button ws = true -> ~ all_space (w_query ws) ->
        length dispatched = 1).
Proof.
  intros Hopt. eexists. split; [apply render_search_interface_calls|].
  split.
  - destruct (w_search_button ws && truthy (strip (w_query ws))); [|constructor].
    constructor; [|constructor]. cbn [fst SearchQuery.provider].
    destruct (provider_options_cases _ Hopt) as [->|(p & Hp)].
    + rewrite auto_detect_auto.
      destruct (is_video_url (w_query ws)); split; (done || auto).
    + apply search_provider_of_explicit in Hp as [Hp Hne].
      rewrite auto_detect_explicit, Hp by done. split; [done|]. congruence.
  - intros -> Hblank%truthy_strip_true. by rewrite Hblank.
Qed.

Lemma dispatched_query_names_provider_witness :
  exists sq use_cache,
    service_calls (events (render_search_interface Samples.search_service
                             (Samples.form Samples.plain_query "Auto")
                             Samples.fresh_world))
    = [(sq, use_cache)]
    /\ SearchQuery.provider sq <> None.
Proof.
  destruct (dispatched_query_names_provider _ _ Samples.search_service
              (Samples.form Samples.plain_query "Auto") Samples.fresh_world)
    as (dispatched & Hcalls & Hall & Hlen).
  { simpl. auto. }
  destruct dispatched as [|[sq c] [|? ?]].
  - exfalso. discriminate Hlen; [reflexivity|].
    intros Hs%truthy_strip_false. discriminate.
  - exists sq, c. apply Forall_cons in Hall as [[Hsq _] _].
    split; [exact Hcalls|exact Hsq].
  - exfalso. discriminate Hlen; [reflexivity|].
    intros Hs%truthy_strip_false. discriminate.
Defined.

(** C10. A blank query stops [perform_search] at its guard: when the text
    is empty or all whitespace, the only thing that happens is the error
    message; no [SearchQuery] is built, the service is not called, and the
    session (results, history, last query) and the service state are as
    before.  The form itself does not even call [perform_search] then. *)
Theorem blank_query_stops_early
    (Svc Exn : Type) search query provider num_results domains (w : World Svc Exn) :
  all_space query ->
  let w' := perform_search search query provider num_results domains w in
  events w' = events w ++ [StErrorEnterQuery]
  /\ session w' = session w
  /\ service w' = service w
  /\ service_calls (events w') = service_calls (events w)
  /\ (forall ws, w_query ws = query -> render_search_interface search ws w = w).
Proof.
  intros Hblank w'. unfold w'. rewrite perform_search_blank by done.
  cbn [emit events session service].
  repeat split; try done.
  - by rewrite service_calls_app, app_nil_r.
  - intros ws <-. unfold render_search_interface.
    apply truthy_strip_false in Hblank. rewrite Hblank.
    by destruct (w_search_button ws).
Qed.

Lemma blank_query_stops_early_witness :
  let w' := perform_search Samples.search_service "   " "Tavily" 10 []
                           Samples.fresh_world in
  events w' = [StErrorEnterQuery]
  /\ session w' = session Samples.fresh_world
  /\ service w' = service Samples.fresh_world.
Proof.
  destruct (blank_query_stops_early _ _ Samples.search_service "   " "Tavily" 10 []
              Samples.fresh_world) as (He & Hs & Hsvc & _).
  { simpl. repeat split; reflexivity. }
  repeat split; assumption.
Defined.

End SearchForm.

(** ** The search service: cache, fingerprint, deduplication, failures *)
Module SearchService.
Import PyStr PyStrFacts Service ServiceFacts.
Local Open Scope list_scope.

Lemma sample_hash_inj : Inj (=) (=) Samples.hash.
Proof.
  intros [t1 d1 p1 l1] [t2 d2 p2 l2] H. unfold Samples.hash in H.
  apply (inj pretty), (inj encode) in H. cbn in H. by injection H as -> -> -> ->.
Qed.

Example dedupe_mixed_results :
  dedupe Samples.mixed_results = [Samples.page; Samples.other_page; Samples.note].
Proof. vm_compute. reflexivity. Qed.

(** C7. Deduplication keeps the first-seen result of each item, in place:
    the output is the input with some results left out, in the same
    order.  Two results sharing an identical URL are collapsed into one,
    and so are two results without URL whose title plus snippet agree up
    to letter case and surrounding whitespace: no two results of the
    output are the same item.  A result is in the output exactly when it
    stands in the input with no earlier result that is the same item, so
    the one kept is the first seen and nothing else is dropped; every
    input result has its item in the output. *)
Theorem dedupe_keeps_first_seen (rs : list SearchResult.t) :
  dedupe rs `sublist_of` rs /\
  (forall i j r1 r2 u,
     dedupe rs !! i = Some r1 -> dedupe rs !! j = Some r2 ->
     SearchResult.url r1 = Some u -> SearchResult.url r2 = Some u -> i = j) /\
  (forall i j r1 r2,
     dedupe rs !! i = Some r1 -> dedupe rs !! j = Some r2 ->
     SearchResult.url r1 = None -> SearchResult.url r2 = None ->
     same_up_to_case_and_padding
       (SearchResult.title r1 ++ SearchResult.snippet r1)%string
       (SearchResult.title r2 ++ SearchResult.snippet r2)%string ->
     i = j) /\
  (forall i j r1 r2,
     dedupe rs !! i = Some r1 -> dedupe rs !! j = Some r2 ->
     same_item r1 r2 -> i = j) /\
  (forall r,
     r ∈ dedupe rs <->
     exists pre post,
       rs = pre ++ r :: post /\ (forall r', r' ∈ pre -> ~ same_item r' r)) /\
  (forall r, r ∈ rs -> exists r', r' ∈ dedupe rs /\ same_item r' r).
Proof.
  assert (Hitems : forall i j r1 r2,
            dedupe rs !! i = Some r1 -> dedupe rs !! j = Some r2 ->
            same_item r1 r2 -> i = j).
  { intros i j r1 r2 H1 H2 Hk%same_item_key.
    apply (NoDup_lookup (dedup_key <$> dedupe rs) i j (dedup_key r1)).
    - apply dedupe_from_NoDup.
    - by rewrite list_lookup_fmap, H1.
    - by rewrite list_lookup_fmap, H2, Hk. }
  assert (Hpre : forall (pre : list SearchResult.t) r,
            (dedup_key r ∉ (dedup_key <$> pre)) <->
            (forall r', r' ∈ pre -> ~ same_item r' r)).
  { intros pre r. split.
    - intros Hnot r' Hin Hsame%same_item_key. apply Hnot.
      rewrite <- Hsame. by apply list_elem_of_fmap_2.
    - intros Hall (r' & Hk & Hin)%list_elem_of_fmap.
      apply (Hall r' Hin). by apply same_item_key. }
  split; [apply dedupe_from_sublist|]. split; [|split; [|split; [done|split]]].
  - intros i j r1 r2 u H1 H2 Hu1 Hu2. apply (Hitems i j r1 r2 H1 H2).
    unfold same_item. by rewrite Hu1, Hu2.
  - intros i j r1 r2 H1 H2 Hu1 Hu2 Ht. apply (Hitems i j r1 r2 H1 H2).
    unfold same_item. by rewrite Hu1, Hu2.
  - intros r. unfold dedupe. rewrite dedupe_from_first. split.
    + intros (pre & post & ? & _ & ?). exists pre, post. split; [done|].
      by apply Hpre.
    + intros (pre & post & ? & ?). exists pre, post.
      split; [done|]. split; [apply not_elem_of_nil|by apply Hpre].
  - intros r Hin.
    destruct (dedupe_from_complete dedup_key [] rs r Hin) as (r' & Hin' & Hk);
      [apply not_elem_of_nil|].
    exists r'. split; [done|]. by apply same_item_key.
Qed.

Lemma dedupe_keeps_first_seen_witness :
  Samples.page ∈ dedupe Samples.mixed_results /\
  Samples.note ∈ dedupe Samples.mixed_results /\
  ~ Samples.page_again ∈ dedupe Samples.mixed_results /\
  ~ Samples.note_again ∈ dedupe Samples.mixed_results.
Proof.
  destruct (dedupe_keeps_first_seen Samples.mixed_results)
    as (_ & Hurl & Htext & _ & Hfirst & _).
  split; [|split; [|split]].
  - apply Hfirst. exists [], [Samples.other_page; Samples.page_again;
                             Samples.note; Samples.note_again].
    split; [reflexivity|]. intros r' Hin. by apply elem_of_nil in Hin.
  - apply Hfirst. exists [Samples.page; Samples.other_page; Samples.page_again],
                         [Samples.note_again].
    split; [reflexivity|]. intros r' Hin.
    repeat (apply elem_of_cons in Hin as [->|Hin]; [by intros []|]).
    by apply elem_of_nil in Hin.
  - intros Hin. apply list_elem_of_lookup in Hin as [j Hj].
    assert (0 = j) as <-.
    { apply (Hurl 0 j Samples.page Samples.page_again "https://example.org/qubits");
        [reflexivity|exact Hj|reflexivity|reflexivity]. }
    discriminate Hj.
  - intros Hin. apply list_elem_of_lookup in Hin as [j Hj].
    assert (2 = j) as <-.
    { apply (Htext 2 j Samples.note Samples.note_again);
        [reflexivity|exact Hj|reflexivity|reflexivity|].
      exists ""%string, "SummaryQubits are two-level systems"%string, ""%string,
             ""%string, "SUMMARYqubits are two-level systems"%string, " "%string.
      simpl. repeat split; reflexivity. }
    discriminate Hj.
Defined.

(** C4. An entry past its time-to-live: if the entry stored under a
    fingerprint was created at time T and the clock reads more than T plus
    the TTL, then [get] of the fingerprint is a miss, [cleanup] deletes the
    entry, and the count [cleanup] returns is the number of entries of the
    store whose age exceeds the TTL, which includes this one; entries
    within their TTL stay.  A [put] at time T stores an entry created at
    T. *)
Theorem expired_entry_missed_and_cleaned
    (ttl : Z) (c : gmap string CacheEntry) (fp : string) (e : CacheEntry) (now : Z) :
  c !! fp = Some e -> (created e + ttl < now)%Z ->
  get ttl c now fp = None /\
  (cleanup ttl c now).1 !! fp = None /\
  (cleanup ttl c now).2
  = size (filter (fun kv => (created kv.2 + ttl < now)%Z) c) /\
  filter (fun kv => (created kv.2 + ttl < now)%Z) c !! fp = Some e /\
  1 <= (cleanup ttl c now).2 /\
  (forall fp' e', c !! fp' = Some e' -> (now <= created e' + ttl)%Z ->
                  (cleanup ttl c now).1 !! fp' = Some e') /\
  (forall c0 T rs tag, created <$> (put c0 T fp rs tag !! fp) = Some T).
Proof.
  intros Hfp Hold.
  assert (Hexp : expired ttl now e = true) by by apply expired_iff.
  assert (Hget : get ttl c now fp = None).
  { unfold get. by rewrite Hfp, Hexp. }
  assert (Hin : filter (fun kv => (created kv.2 + ttl < now)%Z) c !! fp = Some e).
  { by apply map_lookup_filter_Some. }
  split; [done|]. split; [|split; [|split; [|split; [|split]]]].
  - by rewrite cleanup_lookup, Hfp, Hexp.
  - apply cleanup_count.
  - done.
  - rewrite cleanup_count.
    assert (size (filter (fun kv => (created kv.2 + ttl < now)%Z) c) <> 0); [|lia].
    by apply (map_size_ne_0_lookup_2 _ fp).
  - intros fp' e' Hfp' Hlive. rewrite cleanup_lookup, Hfp'.
    destruct (expired ttl now e') eqn:He'; [|done].
    apply expired_iff in He'. lia.
  - intros c0 T rs tag. by rewrite get_put.
Qed.

Lemma expired_entry_missed_and_cleaned_witness :
  let c := put (put ∅ 100 "fp-old" [Samples.page] TAVILY)
               3000 "fp-new" [Samples.note] GROQ in
  get Samples.ttl c 3701 "fp-old" = None /\
  (cleanup Samples.ttl c 3701).1 !! "fp-old" = None /\
  1 <= (cleanup Samples.ttl c 3701).2.
Proof.
  intros c.
  destruct (expired_entry_missed_and_cleaned Samples.ttl c "fp-old"
              {| entry_results := [Samples.page]; created := 100;
                 entry_provider := TAVILY |} 3701)
    as (Hget & Hgone & _ & _ & Hcount & _).
  { reflexivity. }
  { reflexivity. }
  repeat split; assumption.
Defined.

Example cleanup_counts_only_expired :
  let c := put (put ∅ 100 "fp-old" [Samples.page] TAVILY)
               3000 "fp-new" [Samples.note] GROQ in
  (cleanup Samples.ttl c 3701).2 = 1 /\
  get Samples.ttl c 3701 "fp-new"
  = Some {| entry_results := [Samples.note]; created := 3000;
            entry_provider := GROQ |}.
Proof. split; vm_compute; reflexivity. Qed.

(** C5. The fingerprint is stable: two queries whose texts differ only in
    letter case or surrounding whitespace, with equal domain filters,
    provider selection and limit, have the same fingerprint, whatever the
    hash is; and when the hash has no collisions, two queries whose domain
    filters differ (some tag is in one and not in the other) have
    different fingerprints. *)
Theorem fingerprint_stable (hash : SearchQuery.t -> string) :
  (forall q1 q2, surface_variants q1 q2 ->
                 fingerprint hash q1 = fingerprint hash q2) /\
  (Inj (=) (=) hash ->
   forall q1 q2,
     filters_differ (SearchQuery.domains q1) (SearchQuery.domains q2) ->
     fingerprint hash q1 <> fingerprint hash q2).
Proof.
  split.
  - intros q1 q2 H. unfold fingerprint. by rewrite (canonical_variants _ _ H).
  - intros Hinj q1 q2 Hd Heq. unfold fingerprint in Heq.
    apply Hinj in Heq. by apply (canonical_filters_differ q1 q2).
Qed.

Lemma fingerprint_stable_witness :
  fingerprint Samples.hash Samples.padded_query
  = fingerprint Samples.hash Samples.tidy_query /\
  fingerprint Samples.hash Samples.tidy_query
  <> fingerprint Samples.hash Samples.filtered_query.
Proof.
  destruct (fingerprint_stable Samples.hash) as [Hsame Hdiff].
  split.
  - apply Hsame. split; [|by repeat split].
    exists "  "%string, "Quantum Computing"%string, " "%string,
           ""%string, "quantum computing"%string, ""%string.
    simpl. repeat split; reflexivity.
  - apply Hdiff; [exact sample_hash_inj|].
    exists "web"%string. right. split; [|simpl; auto].
    simpl. intros [H|[]]. discriminate H.
Defined.

(** C2. When every selected provider fails: on the fetch path (the cache
    is not consulted or has no live entry), if the adapter of each
    selected provider fails, [search] hands back [AllProvidersFailed]
    with one record per selected provider, in dispatch order, carrying the
    kind that provider's adapter failed with, and the cache is returned
    unchanged. *)
Theorem all_fail_aggregates_without_caching
    (Native : Type) (fetch : SearchProvider -> SearchQuery.t -> ErrorKind + list Native)
    normalize router hash ttl cache_tag q use_cache now c :
  cache_miss hash ttl q use_cache now c ->
  Forall (fun p => exists kind, fetch p q = inl kind) (router q) ->
  exists fs,
    search fetch normalize router hash ttl cache_tag q use_cache now c
    = (AllProvidersFailed fs, c)
    /\ map fst fs = router q
    /\ Forall (fun pe => fetch pe.1 q = inl pe.2) fs.
Proof.
  intros Hmiss Hall.
  assert (Hfail : Forall (fun p => succeeds fetch q p = false) (router q)).
  { eapply Forall_impl; [exact Hall|]. intros p [kind Hk].
    unfold succeeds. by rewrite Hk. }
  destruct (filter_all_fail _ fetch _ _ Hfail) as [Hnone Hfs].
  destruct (fan_in_failures _ fetch normalize (router q) q) as [Hmap Hkinds].
  exists (failures (fan_in fetch normalize (router q) q)).
  rewrite search_fetch_path by done. cbn zeta.
  rewrite fan_in_succeeded, Hnone. split; [done|].
  split; [by rewrite Hmap, Hfs|done].
Qed.

Lemma all_fail_aggregates_without_caching_witness :
  search Samples.fetch Samples.normalize select Samples.hash Samples.ttl
         Samples.cache_tag Samples.groq_query true 0 ∅
  = (AllProvidersFailed [(GROQ, Unauthorized)], ∅).
Proof.
  destruct (all_fail_aggregates_without_caching Samples.Native Samples.fetch
              Samples.normalize select Samples.hash Samples.ttl Samples.cache_tag
              Samples.groq_query true 0 ∅)
    as (fs & Hs & Hmap & Hkinds).
  { right. reflexivity. }
  { repeat constructor. by exists Unauthorized. }
  rewrite Hs. f_equal. f_equal.
  destruct fs as [|[p kind] [|? ?]]; try discriminate Hmap.
  apply Forall_cons in Hkinds as [Hk _]. cbn in Hmap, Hk.
  injection Hmap as ->. by injection Hk as <-.
Defined.

(** C3. A failure beside a success: on the fetch path, if one selected
    provider succeeds and another fails, [search] hands back results (not
    the aggregate failure): the deduplicated, truncated sequence of what
    the successful providers returned, in dispatch order, which is what the
    same search gives when only the successful providers are selected; when
    those results have no repeated key and fit the limit it is exactly
    them.  The failure is in the diagnostics, with the kind the adapter
    failed with. *)
Theorem partial_failure_returns_successes
    (Native : Type) (fetch : SearchProvider -> SearchQuery.t -> ErrorKind + list Native)
    normalize router hash ttl cache_tag q use_cache now c p_ok p_bad kind :
  cache_miss hash ttl q use_cache now c ->
  In p_ok (router q) -> succeeds fetch q p_ok = true ->
  In p_bad (router q) -> fetch p_bad q = inl kind ->
  let ok := fun q' => List.filter (succeeds fetch q') (router q') in
  let gathered := flat_map (provider_results fetch normalize q) (ok q) in
  exists rs diag,
    search fetch normalize router hash ttl cache_tag q use_cache now c
    = (Results rs diag, put c now (fingerprint hash q) rs (cache_tag (ok q)))
    /\ rs = take (Z.to_nat (SearchQuery.limit q)) (dedupe gathered)
    /\ outcome_results
         (search fetch normalize ok hash ttl cache_tag q use_cache now c).1
       = Some rs
    /\ (NoDup (dedup_key <$> gathered) ->
        length gathered <= Z.to_nat (SearchQuery.limit q) -> rs = gathered)
    /\ In (p_bad, kind) diag
    /\ Forall (fun pe => fetch pe.1 q = inl pe.2) diag.
Proof.
  intros Hmiss Hok Hsucc Hbad Hkind ok gathered.
  assert (Hne : In p_ok (ok q)) by (apply filter_In; by split).
  exists (take (Z.to_nat (SearchQuery.limit q)) (dedupe gathered)),
         (failures (fan_in fetch normalize (router q) q)).
  split; [|split; [done|split; [|split; [|split]]]].
  - rewrite search_fetch_path by done. cbn zeta.
    rewrite fan_in_succeeded, fan_in_collected. fold (ok q). fold gathered.
    destruct (ok q) as [|p ps] eqn:Hq; [destruct Hne|done].
  - assert (Hidem := filter_succeeds_idem _ fetch (router q) q).
    fold (ok q) in Hidem.
    rewrite search_fetch_path by done. cbn zeta.
    rewrite fan_in_succeeded, fan_in_collected, Hidem. fold gathered.
    destruct (ok q) as [|p ps] eqn:Hq; [destruct Hne|done].
  - intros Hnd Hlen. unfold dedupe. rewrite dedupe_from_id.
    + by apply take_ge.
    + done.
    + intros r _. apply not_elem_of_nil.
  - by apply fan_in_failure_recorded.
  - apply fan_in_failures.
Qed.

Lemma partial_failure_returns_successes_witness :
  exists diag c',
    search Samples.fetch Samples.normalize Samples.two_providers Samples.hash
           Samples.ttl Samples.cache_tag Samples.tidy_query true 0 ∅
    = (Results (map (Samples.normalize TAVILY) Samples.web_items) diag, c')
    /\ In (YOUTUBE, Timeout) diag.
Proof.
  destruct (partial_failure_returns_successes Samples.Native Samples.fetch
              Samples.normalize Samples.two_providers Samples.hash Samples.ttl
              Samples.cache_tag Samples.tidy_query true 0 ∅ TAVILY YOUTUBE Timeout)
    as (rs & diag & Hs & Hrs & _ & _ & Hdiag & _).
  { right. reflexivity. }
  { simpl. auto. }
  { reflexivity. }
  { simpl. auto. }
  { reflexivity. }
  exists diag. eexists. split; [|exact Hdiag].
  rewrite Hs, Hrs. reflexivity.
Defined.

End SearchService.

(** ** More on [strip] *)
Module PyStrTrim.
Import PyStr PyStrFacts.

Lemma lstrip_head s c r : lstrip s = String c r -> is_space c = false.
Proof.
  induction s as [|a s IH]; simpl; [discriminate|].
  destruct (is_space a) eqn:Ha; [done|]. by intros [= <- _].
Qed.

Lemma rstrip_head s c r :
  rstrip s = String c r -> exists r', s = String c r'.
Proof.
  destruct s as [|a s]; simpl; [discriminate|].
  destruct (rstrip s); [destruct (is_space a); [discriminate|]|];
    intros [= <- _]; eauto.
Qed.

Lemma rstrip_last s r c : rstrip s = r ++ String c "" -> is_space c = false.
Proof.
  revert r. induction s as [|a s IH]; intros r; simpl.
  - destruct r; discriminate.
  - destruct (rstrip s) as [|d t] eqn:Hs.
    + destruct (is_space a) eqn:Ha; [destruct r; discriminate|].
      destruct r as [|b r]; rewrite ?str_app_cons, ?str_app_empty_l.
      * by intros [= <-].
      * intros [= _ H]. destruct r; discriminate.
    + destruct r as [|b r]; rewrite ?str_app_cons, ?str_app_empty_l.
      * discriminate.
      * intros [= _ H]. by apply (IH r).
Qed.

Lemma lstrip_id s :
  (forall c r, s = String c r -> is_space c = false) -> lstrip s = s.
Proof.
  destruct s as [|a s]; [done|]. intros H. simpl. by rewrite (H a s).
Qed.

Lemma rstrip_id s :
  (forall r c, s = r ++ String c "" -> is_space c = false) -> rstrip s = s.
Proof.
  induction s as [|a s IH]; [done|]. intros H. simpl.
  rewrite IH.
  - destruct s; [|done]. by rewrite (H "" a).
  - intros r c ->. by apply (H (String a r) c).
Qed.

(** What [strip] returns neither starts nor ends with whitespace. *)
Lemma strip_trimmed s :
  (forall c r, strip s = String c r -> is_space c = false) /\
  (forall r c, strip s = r ++ String c "" -> is_space c = false).
Proof.
  split.
  - intros c r H. unfold strip in H.
    apply rstrip_head in H as [r' H]. by apply lstrip_head in H.
  - intros r c H. by apply rstrip_last in H.
Qed.

Lemma strip_idem s : strip (strip s) = strip s.
Proof.
  destruct (strip_trimmed s) as [Hhead Hlast].
  unfold strip at 1. rewrite (lstrip_id (strip s)) by done.
  by apply rstrip_id.
Qed.

End PyStrTrim.

(** ** One search: what it does to the session *)
Module SearchRun.
Import PyStr PyStrFacts PyStrTrim App AppFacts AppView.
Local Open Scope list_scope.

Section WithService.

Variable Svc : Type.
Variable Exn : Type.
Variable search : SearchQuery.t -> bool -> Svc -> (Exn + list SearchResult.t) * Svc.

(** The session after [perform_search], by the three ways it can end. *)
Lemma perform_search_session query provider num_results domains (w : World Svc Exn) :
  session (perform_search search query provider num_results domains w)
  = if truthy (strip query) then
      match search (SearchQuery.make (strip query) domains
                      (search_provider_of provider) num_results)
                   true (service w) with
      | (inr results, _) =>
          {| search_results := results;
             search_history :=
               take 10 ({| h_query := query; h_provider := provider;
                           results_count := length results;
                           timestamp := clock w |}
                        :: search_history (session w));
             last_query := query |}
      | (inl _, _) => session w
      end
    else session w.
Proof.
  unfold perform_search. destruct (truthy (strip query)); [|done].
  cbn [negb]. cbn zeta.
  destruct (search _ true _) as [[e|results] s']; [done|].
  by destruct results.
Qed.

Lemma render_search_interface_session ws (w : World Svc Exn) :
  session (render_search_interface search ws w) = session w \/
  exists provider,
    w_search_button ws = true /\ truthy (strip (w_query ws)) = true /\
    session (render_search_interface search ws w)
    = session (perform_search search (w_query ws) provider
                 (w_num_results ws) (w_domains ws) w).
Proof.
  unfold render_search_interface.
  destruct (w_search_button ws); [|by left].
  destruct (truthy (strip (w_query ws))) eqn:Ht; [|by left].
  right. eauto.
Qed.

End WithService.

(** X1. A search in which the service raises an exception of class
    [Exception] (the ones [except Exception] catches, [e] below) leaves
    the session as it was: results, history and last query are those from
    before; the failure is logged and shown, after the one call to the
    service, and the state the service left is kept.  A raise outside
    [Exception] is not caught by [perform_search] and is not covered. *)
Theorem failed_search_keeps_session
    (Svc Exn : Type) search query provider num_results domains
    (w : World Svc Exn) e s' :
  let sq := SearchQuery.make (strip query) domains
                             (search_provider_of provider) num_results in
  ~ all_space query ->
  search sq true (service w) = (inl e, s') ->
  let w' := perform_search search query provider num_results domains w in
  session w' = session w
  /\ service w' = s'
  /\ events w' = events w ++ [NewSearchQuery sq; StSpinner provider;
                              ServiceCall sq true;
                              LogSearchFailed e; StErrorSearchFailed e].
Proof.
  intros sq Hblank Hs w'. unfold w', perform_search.
  apply truthy_strip_true in Hblank. rewrite Hblank. cbn [negb]. cbn zeta.
  fold sq. cbn [emit service]. rewrite Hs. cbn.
  repeat split. by rewrite <- !app_assoc.
Qed.

Lemma failed_search_keeps_session_witness :
  let w' := perform_search MoreSamples.flaky_service "qubits" "Groq" 10 []
                           MoreSamples.first_run in
  session w' = session MoreSamples.first_run /\ service w' = 1.
Proof.
  destruct (failed_search_keeps_session _ _ MoreSamples.flaky_service
              "qubits" "Groq" 10 [] MoreSamples.first_run "Unauthorized" 1)
    as (Hs & Hsvc & _).
  { intros H%truthy_strip_false. discriminate. }
  { reflexivity. }
  split; assumption.
Defined.

(** X2. A search the service answers replaces the results, stores the
    text as typed (not stripped) as last query, and puts a new entry in
    front of the history: the entry holds the text, the provider name, the
    number of results and the time; the nine newest older entries follow
    in their order, and nothing is kept beyond ten.  The message is the
    success with the count, or the warning when there are no results. *)
Theorem answered_search_records_history
    (Svc Exn : Type) search query provider num_results domains
    (w : World Svc Exn) results s' :
  let sq := SearchQuery.make (strip query) domains
                             (search_provider_of provider) num_results in
  ~ all_space query ->
  search sq true (service w) = (inr results, s') ->
  let w' := perform_search search query provider num_results domains w in
  search_results (session w') = results
  /\ last_query (session w') = query
  /\ search_history (session w') !! 0
     = Some {| h_query := query; h_provider := provider;
               results_count := length results; timestamp := clock w |}
  /\ (forall i, i < 9 ->
        search_history (session w') !! S i = search_history (session w) !! i)
  /\ (forall i, 10 <= i -> search_history (session w') !! i = None)
  /\ service w' = s'
  /\ events w' = events w ++ [NewSearchQuery sq; StSpinner provider;
                              ServiceCall sq true;
                              match results with
                              | [] => StWarningNoResults
                              | _ :: _ => StSuccessFound (length results)
                              end].
Proof.
  intros sq Hblank Hs w'.
  assert (Hsess := perform_search_session _ _ search query provider
                     num_results domains w).
  apply truthy_strip_true in Hblank. rewrite Hblank in Hsess.
  fold sq in Hsess. rewrite Hs in Hsess. fold w' in Hsess. rewrite Hsess.
  cbn [search_results last_query search_history].
  split; [done|]. split; [done|]. split; [done|].
  split; [|split; [|split]].
  - intros i Hi. rewrite lookup_take_lt by lia. done.
  - intros i Hi. apply lookup_ge_None. rewrite length_take. lia.
  - unfold w', perform_search. rewrite Hblank. cbn [negb]. cbn zeta.
    fold sq. cbn [emit service]. rewrite Hs. by destruct results.
  - unfold w', perform_search. rewrite Hblank. cbn [negb]. cbn zeta.
    fold sq. cbn [emit service]. rewrite Hs.
    destruct results; cbn; by rewrite <- !app_assoc.
Qed.

Lemma answered_search_records_history_witness :
  let w' := perform_search MoreSamples.flaky_service " qubits " "Tavily" 10 []
                           MoreSamples.first_run in
  search_results (session w') = [Samples.page; Samples.other_page]
  /\ last_query (session w') = " qubits "
  /\ results_count <$> (search_history (session w') !! 0) = Some 2.
Proof.
  destruct (answered_search_records_history _ _ MoreSamples.flaky_service
              " qubits " "Tavily" 10 [] MoreSamples.first_run
              [Samples.page; Samples.other_page] 1)
    as (Hr & Hq & Hh & _).
  { intros H%truthy_strip_false. discriminate. }
  { reflexivity. }
  cbv zeta. rewrite Hr, Hq, Hh. repeat split.
Defined.

(** X3. The history never grows past ten entries: if it holds at most ten
    before [perform_search] or before the form is handled, it holds at
    most ten afterwards, however the search ends. *)
Theorem history_stays_bounded (Svc Exn : Type) search (w : World Svc Exn) :
  history_bounded (session w) ->
  (forall query provider num_results domains,
     history_bounded
       (session (perform_search search query provider num_results domains w)))
  /\ (forall ws, history_bounded (session (render_search_interface search ws w))).
Proof.
  intros Hb.
  assert (Hp : forall query provider num_results domains,
             history_bounded
               (session (perform_search search query provider num_results domains w))).
  { intros query provider num_results domains.
    rewrite perform_search_session.
    destruct (truthy (strip query)); [|done].
    destruct (search _ true _) as [[e|results] s']; [done|].
    unfold history_bounded. cbn [search_history]. rewrite length_take. lia. }
  split; [done|]. intros ws.
  destruct (render_search_interface_session _ _ search ws w)
    as [->|(provider & _ & _ & ->)]; [done|apply Hp].
Qed.

Lemma history_stays_bounded_witness :
  history_bounded
    (session (perform_search MoreSamples.flaky_service "qubits" "Tavily" 10 []
                             MoreSamples.first_run)).
Proof.
  apply (history_stays_bounded _ _ MoreSamples.flaky_service MoreSamples.first_run).
  unfold history_bounded. simpl. lia.
Defined.

(** X4. The newest history entry counts the results on display: if that
    holds before [perform_search] or before the form is handled (with no
    history there are no results), it holds afterwards, whether the
    search is refused as blank, fails or is answered. *)
Theorem history_keeps_matching_results (Svc Exn : Type) search (w : World Svc Exn) :
  history_matches_results (session w) ->
  (forall query provider num_results domains,
     history_matches_results
       (session (perform_search search query provider num_results domains w)))
  /\ (forall ws,
        history_matches_results (session (render_search_interface search ws w))).
Proof.
  intros Hm.
  assert (Hp : forall query provider num_results domains,
             history_matches_results
               (session (perform_search search query provider num_results domains w))).
  { intros query provider num_results domains.
    rewrite perform_search_session.
    destruct (truthy (strip query)); [|done].
    destruct (search _ true _) as [[e|results] s']; [done|].
    unfold history_matches_results. cbn [search_history search_results].
    reflexivity. }
  split; [done|]. intros ws.
  destruct (render_search_interface_session _ _ search ws w)
    as [->|(provider & _ & _ & ->)]; [done|apply Hp].
Qed.

Lemma history_keeps_matching_results_witness :
  history_matches_results
    (session (render_search_interface MoreSamples.flaky_service
                (Samples.form "qubits" "Auto") MoreSamples.first_run)).
Proof.
  apply (history_keeps_matching_results _ _ MoreSamples.flaky_service
           MoreSamples.first_run).
  reflexivity.
Defined.

(** X5. What [perform_search] hands to the service: at most one query, and
    exactly one when the text is not blank; always with the cache on; its
    text is the stripped input, so it is not empty, does not start or end
    with whitespace, and stripping it again changes nothing; domains and
    limit are the ones given. *)
Theorem dispatched_text_is_trimmed
    (Svc Exn : Type) search query provider num_results domains (w : World Svc Exn) :
  exists dispatched,
    service_calls (events (perform_search search query provider num_results domains w))
    = service_calls (events w) ++ dispatched
    /\ length dispatched <= 1
    /\ (~ all_space query -> length dispatched = 1)
    /\ Forall (fun call =>
         call.2 = true
         /\ SearchQuery.query call.1 = strip query
         /\ strip (SearchQuery.query call.1) = SearchQuery.query call.1
         /\ SearchQuery.query call.1 <> ""%string
         /\ (forall c r, SearchQuery.query call.1 = String c r -> is_space c = false)
         /\ (forall r c, SearchQuery.query call.1 = (r ++ String c "")%string ->
                         is_space c = false)
         /\ SearchQuery.domains call.1 = domains
         /\ SearchQuery.limit call.1 = num_results) dispatched.
Proof.
  destruct (truthy (strip query)) eqn:Ht.
  - eexists. split; [apply perform_search_calls; by apply truthy_strip_true|].
    split; [simpl; lia|]. split; [done|].
    constructor; [|constructor]. cbn [fst snd SearchQuery.query
      SearchQuery.domains SearchQuery.limit].
    destruct (strip_trimmed query) as [Hhead Hlast].
    repeat split; try done.
    + apply strip_idem.
    + intros Hempty. by rewrite Hempty in Ht.
  - exists []. apply truthy_strip_false in Ht.
    rewrite perform_search_blank by done. cbn [emit events].
    rewrite service_calls_app. cbn [service_calls].
    split; [done|]. split; [simpl; lia|]. split; [|constructor].
    intros Hn. by destruct Hn.
Qed.

Lemma dispatched_text_is_trimmed_witness :
  exists sq,
    service_calls (events (perform_search MoreSamples.flaky_service
                             "  qubits  " "Tavily" 10 [] MoreSamples.first_run))
    = [(sq, true)]
    /\ SearchQuery.query sq = "qubits"%string.
Proof.
  destruct (dispatched_text_is_trimmed _ _ MoreSamples.flaky_service
              "  qubits  " "Tavily" 10 [] MoreSamples.first_run)
    as (dispatched & Hcalls & _ & Hone & Hall).
  destruct dispatched as [|[sq c] [|? ?]].
  - exfalso. discriminate Hone. intros H%truthy_strip_false. discriminate.
  - apply Forall_cons in Hall as [(Hc & Hq & _) _]. cbn in Hc, Hq.
    exists sq. rewrite Hcalls, Hc, Hq. split; reflexivity.
  - exfalso. discriminate Hone. intros H%truthy_strip_false. discriminate.
Defined.

End SearchRun.

(** ** The page: session set-up, results list, result cards *)
Module PageView.
Import PyStr PyStrFacts App AppFacts AppView SearchRun.
Local Open Scope list_scope.

(** *** [init_session_state] *)

Lemma set_if_missing_lookup key v (st : gmap string SessionValue) k :
  set_if_missing key v st !! k
  = if decide (key = k) then Some (default v (st !! key)) else st !! k.
Proof.
  unfold set_if_missing. destruct (st !! key) as [x|] eqn:Hk.
  - case_decide as Heq; [|done]. by rewrite <- Heq, Hk.
  - case_decide as Heq.
    + rewrite <- Heq. by rewrite lookup_insert_eq.
    + by rewrite lookup_insert_ne.
Qed.

Lemma set_if_missing_present key v (st : gmap string SessionValue) :
  is_Some (st !! key) -> set_if_missing key v st = st.
Proof. intros [x Hx]. unfold set_if_missing. by rewrite Hx. Qed.

Lemma set_if_missing_keeps key v (st : gmap string SessionValue) k x :
  st !! k = Some x -> set_if_missing key v st !! k = Some x.
Proof.
  intros Hk. rewrite set_if_missing_lookup. case_decide as Heq; [|done].
  rewrite Heq, Hk. done.
Qed.

Lemma set_if_missing_sets key v (st : gmap string SessionValue) :
  is_Some (set_if_missing key v st !! key).
Proof. rewrite set_if_missing_lookup, decide_True by done. eauto. Qed.

(** X6. [init_session_state] only fills gaps: every attribute that is set
    keeps its value (results and history survive a rerun of the script),
    the three attributes of the page are set afterwards, no other
    attribute is touched, and a second call changes nothing. *)
Theorem init_session_state_fills_gaps (st : gmap string SessionValue) :
  (forall k v, st !! k = Some v -> init_session_state st !! k = Some v)
  /\ (forall k, In k session_keys -> is_Some (init_session_state st !! k))
  /\ (forall k, ~ In k session_keys -> init_session_state st !! k = st !! k)
  /\ init_session_state (init_session_state st) = init_session_state st
  /\ (forall s, session_of st = Some s -> session_of (init_session_state st) = Some s)
  /\ (st !! "search_results" = None -> st !! "search_history" = None ->
      st !! "last_query" = None ->
      session_of (init_session_state st)
      = Some {| search_results := []; search_history := []; last_query := "" |}).
Proof.
  assert (Hkeep : forall k v, st !! k = Some v -> init_session_state st !! k = Some v).
  { intros k v Hk. unfold init_session_state.
    by do 3 apply set_if_missing_keeps. }
  assert (Hset : forall k, In k session_keys -> is_Some (init_session_state st !! k)).
  { intros k [<-|[<-|[<-|[]]]]; unfold init_session_state.
    - destruct (set_if_missing_sets "search_results" (VResults []) st) as [x Hx].
      exists x. by do 2 apply set_if_missing_keeps.
    - destruct (set_if_missing_sets "search_history" (VHistory [])
                  (set_if_missing "search_results" (VResults []) st)) as [x Hx].
      exists x. by apply set_if_missing_keeps.
    - apply set_if_missing_sets. }
  split; [done|]. split; [done|]. split; [|split; [|split]].
  - intros k Hk. unfold init_session_state. rewrite !set_if_missing_lookup.
    repeat case_decide; try done; subst k; destruct Hk; simpl; auto.
  - unfold init_session_state at 1.
    rewrite (set_if_missing_present "search_results") by (apply Hset; simpl; auto).
    rewrite (set_if_missing_present "search_history") by (apply Hset; simpl; auto).
    apply set_if_missing_present, Hset. simpl. auto.
  - intros s Hs. unfold session_of in *.
    destruct (st !! "search_results") as [x1|] eqn:H1; [|done].
    destruct (st !! "search_history") as [x2|] eqn:H2; [|by destruct x1].
    destruct (st !! "last_query") as [x3|] eqn:H3; [|by destruct x1, x2].
    by rewrite (Hkeep _ _ H1), (Hkeep _ _ H2), (Hkeep _ _ H3).
  - intros H1 H2 H3. unfold session_of, init_session_state.
    rewrite !set_if_missing_lookup. simpl. by rewrite H1, H2, H3.
Qed.

Lemma init_session_state_fills_gaps_witness :
  init_session_state {["last_query" := VText "qubits"]} !! "last_query"
  = Some (VText "qubits")
  /\ is_Some (init_session_state {["last_query" := VText "qubits"]} !! "search_results")
  /\ session_of (init_session_state ∅)
     = Some {| search_results := []; search_history := []; last_query := "" |}.
Proof.
  split; [|split].
  - apply (init_session_state_fills_gaps {["last_query" := VText "qubits"]}).
    reflexivity.
  - apply (init_session_state_fills_gaps {["last_query" := VText "qubits"]}).
    simpl. auto.
  - apply (init_session_state_fills_gaps ∅); reflexivity.
Defined.

(** *** The provider filter of [render_results] *)

Lemma filter_sublist {A} (f : A -> bool) (l : list A) : List.filter f l `sublist_of` l.
Proof.
  induction l as [|x l IH]; simpl; [constructor|].
  destruct (f x); by constructor.
Qed.

Lemma filter_options_spec value results choice :
  In choice (filter_options value results) <->
  choice = "All"%string \/
  exists r, In r results /\ value (SearchResult.provider r) = choice.
Proof.
  unfold filter_options, providers. cbn [In].
  rewrite <- list_elem_of_In, elem_of_elements, elem_of_list_to_set, list_elem_of_fmap.
  split; intros [H|(r & H1 & H2)]; auto; right; exists r.
  - by rewrite <- list_elem_of_In.
  - by rewrite list_elem_of_In.
Qed.

(** X7. Whatever the filter select box offers leads to something: with
    results on display, "All" shows all of them, and every other choice on
    offer shows exactly the results whose provider has that value; the
    results shown are never none, and they keep the order of the
    results. *)
Theorem offered_filter_shows_results value results choice :
  results <> [] ->
  In choice (filter_options value results) ->
  let shown := filtered_results value choice results in
  shown `sublist_of` results
  /\ shown <> []
  /\ (choice = "All"%string -> shown = results)
  /\ (choice <> "All"%string ->
      forall r, In r shown <->
                In r results /\ value (SearchResult.provider r) = choice).
Proof.
  intros Hne Hin shown. unfold shown, filtered_results.
  destruct (String.eqb_spec choice "All") as [->|Hc].
  - repeat split; try done.
  - apply filter_options_spec in Hin as [?|(r0 & Hr0 & Hv)]; [done|].
    assert (Hspec : forall r,
              In r (List.filter
                      (fun r => String.eqb (value (SearchResult.provider r)) choice)
                      results)
              <-> In r results /\ value (SearchResult.provider r) = choice).
    { intros r. rewrite filter_In. by rewrite String.eqb_eq. }
    split; [apply filter_sublist|]. split; [|split; [done|]].
    + intros Hnil. assert (Hr : In r0 []); [|done].
      rewrite <- Hnil. by apply Hspec.
    + intros _. exact Hspec.
Qed.

Lemma offered_filter_shows_results_witness :
  filtered_results MoreSamples.provider_value "groq" Samples.mixed_results
  = [Samples.note; Samples.note_again]
  /\ filtered_results MoreSamples.provider_value "groq" Samples.mixed_results <> [].
Proof.
  split; [reflexivity|].
  apply (offered_filter_shows_results MoreSamples.provider_value
           Samples.mixed_results "groq"); [discriminate|].
  apply filter_options_spec. right. exists Samples.note.
  split; [simpl; auto|reflexivity].
Defined.

(** *** Widget keys *)

Lemma pretty_go_not_t x s s' :
  s <> String "t" s' -> pretty_N_go x s <> String "t" s'.
Proof.
  revert s. induction (N.lt_wf_0 x) as [x _ IH]. intros s Hs.
  destruct (decide (x = 0%N)) as [->|Hx]; [by rewrite pretty_N_go_0|].
  rewrite pretty_N_go_step by lia. apply IH.
  - apply N.div_lt; lia.
  - unfold pretty_N_char. repeat case_match; discriminate.
Qed.

Lemma pretty_nat_not_t (n : nat) s' : pretty n <> String "t" s'.
Proof.
  unfold pretty, pretty_nat, pretty, pretty_N.
  case_decide; [discriminate|]. by apply pretty_go_not_t.
Qed.

(** The names in front of the index in the keys of a card. *)
Lemma indexed_key_inj n1 n2 i1 i2 :
  In n1 ["transcript"; "transcript_text"; "analysis"; "metadata"]%string ->
  In n2 ["transcript"; "transcript_text"; "analysis"; "metadata"]%string ->
  indexed_key n1 i1 = indexed_key n2 i2 -> n1 = n2 /\ i1 = i2.
Proof.
  unfold indexed_key.
  intros [<-|[<-|[<-|[<-|[]]]]] [<-|[<-|[<-|[<-|[]]]]] H;
    rewrite ?str_app_cons, ?str_app_empty_l in H;
    try discriminate H;
    simplify_eq H; clear H; intros H;
    try (split; [done|]; by apply (inj pretty)).
  - rewrite ?str_app_cons, ?str_app_empty_l in H.
    by apply pretty_nat_not_t in H.
  - symmetry in H. rewrite ?str_app_cons, ?str_app_empty_l in H.
    by apply pretty_nat_not_t in H.
Qed.

Lemma indexed_key_not_fixed n i :
  In n ["transcript"; "transcript_text"; "analysis"; "metadata"]%string ->
  indexed_key n i <> "provider_filter"%string /\
  indexed_key n i <> "show_transcripts"%string.
Proof.
  unfold indexed_key.
  intros [<-|[<-|[<-|[<-|[]]]]]; rewrite ?str_app_cons, ?str_app_empty_l;
    split; discriminate.
Qed.

Local Ltac names_ok :=
  split; [reflexivity|]; split;
  [apply NoDup_ListNoDup; repeat constructor; simpl; intuition discriminate
  |intros n Hn; apply list_elem_of_In in Hn; simpl in *; tauto].

(** The keyed widgets of one card, as names in front of its index. *)
Lemma card_keys checked r i :
  exists names,
    widget_keys (render_result_card checked r i)
    = (fun n => indexed_key n i) <$> names
    /\ NoDup names
    /\ (forall n, n ∈ names ->
          In n ["transcript"; "transcript_text"; "analysis"; "metadata"]%string).
Proof.
  unfold render_result_card, widget_keys.
  rewrite !omap_app.
  assert (Hsplit : forall (b : bool) (x y : list Element),
            omap element_key (if b then x else y)
            = if b then omap element_key x else omap element_key y)
    by (by intros []).
  rewrite !Hsplit.
  destruct (SearchResult.url r) as [u|]; [destruct (truthy u)|];
    destruct (truthy (SearchResult.snippet r));
    destruct (bool_decide (SearchResult.provider r = YOUTUBE)
              && bool_decide (SearchResult.metadata r !! "type"%string
                              = Some (MetaText "transcript")));
    destruct (bool_decide (SearchResult.provider r = GROQ)
              && bool_decide (SearchResult.metadata r !! "type"%string
                              = Some (MetaText "ai_analysis")));
    rewrite ?omap_app, ?Hsplit;
    destruct (checked (indexed_key "transcript" i));
    destruct (checked (indexed_key "analysis" i));
    destruct (checked (indexed_key "metadata" i)); cbn;
    first
      [ exists ["transcript"; "transcript_text"; "metadata"]%string;
        names_ok
      | exists ["transcript"; "metadata"]%string;
        names_ok
      | exists ["analysis"; "metadata"]%string;
        names_ok
      | exists ["metadata"]%string;
        names_ok ].
Qed.

Lemma cards_keys checked rs i0 :
  exists pairs : list (string * nat),
    widget_keys (render_cards checked rs i0)
    = (fun p => indexed_key p.1 p.2) <$> pairs
    /\ NoDup pairs
    /\ (forall p, p ∈ pairs ->
          In p.1 ["transcript"; "transcript_text"; "analysis"; "metadata"]%string
          /\ i0 <= p.2).
Proof.
  revert i0. induction rs as [|r rs IH]; intros i0.
  - exists []. split; [done|]. split; [constructor|]. intros p Hp.
    by apply elem_of_nil in Hp.
  - destruct (card_keys checked r i0) as (names & Hk & Hnd & Hnames).
    destruct (IH (S i0)) as (pairs & Hks & Hnds & Hpairs).
    exists (((fun n => (n, i0)) <$> names) ++ pairs).
    split; [|split].
    + cbn [render_cards]. unfold widget_keys in *.
      rewrite omap_app, Hk, Hks, fmap_app, <- list_fmap_compose. done.
    + apply NoDup_app. split; [|split; [|done]].
      * apply NoDup_fmap_2; [|done]. by intros n1 n2 [= ->].
      * intros p (n & -> & Hn)%list_elem_of_fmap Hp.
        apply Hpairs in Hp as [_ Hp]. simpl in Hp. lia.
    + intros p [(n & -> & Hn)%list_elem_of_fmap|Hp]%elem_of_app.
      * split; [by apply Hnames|done].
      * apply Hpairs in Hp as [? ?]. split; [done|lia].
Qed.

(** X8. No two widgets of the results area share a key: the filter select
    box, the transcript check box of the area, and the check boxes and
    text areas of all the cards have pairwise different keys, for every
    session, filter choice and state of the check boxes. *)
Theorem results_widget_keys_distinct value checked session choice :
  NoDup (widget_keys (render_results value checked session choice)).
Proof.
  unfold render_results.
  destruct (search_results session) as [|r0 rs0] eqn:Hrs.
  { destruct (truthy (last_query session)); constructor. }
  set (shown := filtered_results value choice (r0 :: rs0)).
  destruct (cards_keys checked shown 0) as (pairs & Hk & Hnd & Hpairs).
  unfold widget_keys in *. rewrite omap_app, Hk. cbn [omap element_key app].
  assert (Hfixed : forall k, k ∈ (fun p : string * nat => indexed_key p.1 p.2) <$> pairs ->
            k <> "provider_filter"%string /\ k <> "show_transcripts"%string).
  { intros k (p & -> & Hp)%list_elem_of_fmap.
    apply indexed_key_not_fixed. by apply Hpairs. }
  cbn. apply NoDup_cons. split.
  { rewrite not_elem_of_cons. split; [discriminate|].
    intros Hin. by destruct (Hfixed _ Hin). }
  apply NoDup_cons. split.
  { intros Hin. by destruct (Hfixed _ Hin). }
  apply NoDup_fmap_2_strong; [|done].
  intros [n1 i1] [n2 i2] H1 H2 Heq. cbn in Heq.
  apply indexed_key_inj in Heq as [-> ->]; [done|..].
  - by apply (Hpairs (n1, i1)).
  - by apply (Hpairs (n2, i2)).
Qed.

Example transcript_card_keys :
  widget_keys (render_result_card MoreSamples.all_checked
                 MoreSamples.transcript_result 11)
  = ["transcript_11"; "transcript_text_11"; "metadata_11"]%string.
Proof. vm_compute. reflexivity. Qed.

(** *** The page after a search *)

(** X9. What the results area shows after [perform_search], for every
    filter choice: after a search the service answered with no results it
    is the "No results to display" note, never the get-started hint;
    after a search in which the service raised an [Exception], and after a
    blank query, it is what it was before; after an answered search with
    results and the filter on "All", it is the summary, the filter and the
    transcript box, then one card per result, in the order of the answer,
    under a heading with their number.  The summary names each provider
    value of the results once and the filter offers "All" and those
    values, in whatever order the set gives them. *)
Theorem results_area_after_search
    (Svc Exn : Type) search query provider num_results domains
    (w : World Svc Exn) value checked choice :
  let sq := SearchQuery.make (strip query) domains
                             (search_provider_of provider) num_results in
  let w' := perform_search search query provider num_results domains w in
  (forall s', ~ all_space query -> search sq true (service w) = (inr [], s') ->
     render_results value checked (session w') choice = [InfoNoResults])
  /\ (forall e s', search sq true (service w) = (inl e, s') ->
        render_results value checked (session w') choice
        = render_results value checked (session w) choice)
  /\ (all_space query ->
        render_results value checked (session w') choice
        = render_results value checked (session w) choice)
  /\ (forall r rs s', ~ all_space query ->
        search sq true (service w) = (inr (r :: rs), s') ->
        choice = "All"%string ->
        exists names options,
          render_results value checked (session w') choice
          = [Summary (length (r :: rs)) (length names) names;
             SelectBox "provider_filter" options;
             Checkbox "show_transcripts";
             Subheader (length (r :: rs))]
            ++ render_cards checked (r :: rs) 0
          /\ NoDup names
          /\ (forall x, In x names <->
                 exists r', In r' (r :: rs) /\
                            value (SearchResult.provider r') = x)
          /\ (forall x, In x options <-> x = "All"%string \/ In x names)).
Proof.
  intros sq w'.
  assert (Hsess := perform_search_session _ _ search query provider
                     num_results domains w).
  fold sq w' in Hsess.
  split; [|split; [|split]].
  - intros s' Hblank Hs. apply truthy_strip_true in Hblank.
    rewrite Hblank, Hs in Hsess. rewrite Hsess.
    unfold render_results. cbn [search_results last_query].
    destruct query as [|c query]; [discriminate Hblank|done].
  - intros e s' Hs. rewrite Hs in Hsess. rewrite Hsess.
    by destruct (truthy (strip query)).
  - intros Hblank%truthy_strip_false. rewrite Hblank in Hsess. by rewrite Hsess.
  - intros r rs s' Hblank Hs ->. apply truthy_strip_true in Hblank.
    rewrite Hblank, Hs in Hsess. rewrite Hsess.
    exists (elements (providers value (r :: rs))),
           (filter_options value (r :: rs)).
    assert (Hnames : forall x,
              In x (elements (providers value (r :: rs))) <->
              exists r', In r' (r :: rs) /\ value (SearchResult.provider r') = x).
    { intros x. unfold providers.
      rewrite <- list_elem_of_In, elem_of_elements, elem_of_list_to_set,
        list_elem_of_fmap.
      split; intros (r' & H1 & H2); exists r'.
      - by rewrite <- list_elem_of_In.
      - by rewrite list_elem_of_In. }
    split_and!.
    + unfold render_results. cbn [search_results]. unfold size, set_size.
      cbn [compose]. reflexivity.
    + apply NoDup_elements.
    + exact Hnames.
    + intros x. unfold filter_options. cbn [In]. split; intros [H|H]; auto.
Qed.

Lemma results_area_after_search_witness :
  render_results MoreSamples.provider_value MoreSamples.all_checked
    (session (perform_search MoreSamples.flaky_service "qubits" "Groq" 10 []
                             MoreSamples.first_run)) "All"
  = [InfoGetStarted]
  /\ render_results MoreSamples.provider_value MoreSamples.all_checked
       (session (perform_search (fun _ _ n => (inr [], n)) "qubits" "Tavily" 10 []
                                MoreSamples.first_run)) "All"
     = [InfoNoResults].
Proof.
  split.
  - destruct (results_area_after_search _ _ MoreSamples.flaky_service
                "qubits" "Groq" 10 [] MoreSamples.first_run
                MoreSamples.provider_value MoreSamples.all_checked "All")
      as (_ & Hfail & _).
    rewrite (Hfail "Unauthorized"%string 1); reflexivity.
  - destruct (results_area_after_search nat string (fun _ _ n => (inr [], n))
                "qubits" "Tavily" 10 [] MoreSamples.first_run
                MoreSamples.provider_value MoreSamples.all_checked "All")
      as (Hempty & _).
    apply (Hempty 0); [|reflexivity].
    intros H%truthy_strip_false. discriminate.
Defined.

(** *** History labels *)

Lemma substring_length n s :
  String.length (substring 0 n s) = Nat.min n (String.length s).
Proof.
  revert s. induction n as [|n IH]; intros [|c s]; simpl; auto.
Qed.

Lemma str_length_app (s t : string) :
  String.length (s ++ t)%string = String.length s + String.length t.
Proof.
  induction s as [|c s IH]; [reflexivity|].
  rewrite str_app_cons. simpl. by rewrite IH.
Qed.

Lemma substring_is_prefix n s :
  exists rest, s = (substring 0 n s ++ rest)%string.
Proof.
  revert s. induction n as [|n IH]; intros [|c s]; simpl.
  - by exists ""%string.
  - by exists (String c s).
  - by exists ""%string.
  - destruct (IH s) as [rest Hrest]. exists rest.
    by rewrite str_app_cons, <- Hrest.
Qed.

(** X10. The label of a history button is never longer than 28
    characters: a text of at most 25 characters is its own label, a longer
    one is cut to its first 25 characters followed by three dots. *)
Theorem history_label_bounded q :
  String.length (history_label q) <= 28
  /\ (String.length q <= 25 -> history_label q = q)
  /\ (25 < String.length q ->
      String.length (history_label q) = 28
      /\ exists head rest,
           q = (head ++ rest)%string /\ String.length head = 25
           /\ history_label q = (head ++ "...")%string).
Proof.
  unfold history_label.
  destruct (Nat.ltb_spec 25 (String.length q)) as [Hlong|Hshort].
  - assert (Hlen : String.length (substring 0 25 q ++ "...")%string = 28).
    { rewrite str_length_app, substring_length. simpl String.length. lia. }
    split; [lia|]. split; [lia|]. intros _. split; [done|].
    destruct (substring_is_prefix 25 q) as [rest Hrest].
    exists (substring 0 25 q), rest. split; [done|]. split; [|done].
    rewrite substring_length. lia.
  - split; [lia|]. split; [done|]. lia.
Qed.

Lemma history_label_bounded_witness :
  history_label "short" = "short"%string
  /\ String.length (history_label "a very long query text that goes on") = 28.
Proof.
  split.
  - apply (history_label_bounded "short"). simpl. lia.
  - apply (history_label_bounded "a very long query text that goes on").
    simpl. lia.
Defined.

End PageView.

(** ** The setup script *)
Module SetupScript.
Import PyStr PyStrFacts Setup.
Local Open Scope list_scope.

(** X11. [create_env_file] never touches an existing file: every file of
    the directory is there afterwards with the same text, and only [.env]
    can be new.  It fails exactly when neither [.env] nor [env.example]
    exists, and then changes nothing; when it succeeds [.env] exists, and
    a [.env] it created is a copy of [env.example]. *)
Theorem create_env_file_keeps_files (fs : gmap string string) :
  let '(_, created, fs') := create_env_file fs in
  (forall path text, fs !! path = Some text -> fs' !! path = Some text)
  /\ (forall path, path <> ".env"%string -> fs' !! path = fs !! path)
  /\ (created = false <->
      fs !! ".env"%string = None /\ fs !! "env.example"%string = None)
  /\ (created = false -> fs' = fs)
  /\ (created = true -> is_Some (fs' !! ".env"%string))
  /\ (fs !! ".env"%string = None ->
      forall template, fs !! "env.example"%string = Some template ->
                       fs' !! ".env"%string = Some template).
Proof.
  unfold create_env_file.
  destruct (fs !! ".env"%string) as [env|] eqn:Henv;
    [|destruct (fs !! "env.example"%string) as [template|] eqn:Hex].
  - split_and!; try done.
    split; [done|by intros [? _]].
  - split_and!; try done.
    + intros path text Hp. rewrite lookup_insert_ne; [done|]. congruence.
    + intros path Hp. by rewrite lookup_insert_ne.
    + split; [done|by intros [_ ?]].
    + intros _. rewrite lookup_insert_eq. eauto.
    + intros _ t [= <-]. by rewrite lookup_insert_eq.
  - split_and!; try done.
Qed.

Lemma create_env_file_keeps_files_witness :
  (create_env_file MoreSamples.template_only).2 !! ".env"%string
  = Some "TAVILY_API_KEY=your_tavily_key"%string
  /\ (create_env_file MoreSamples.template_only).2 !! "env.example"%string
     = Some "TAVILY_API_KEY=your_tavily_key"%string.
Proof.
  pose proof (create_env_file_keeps_files MoreSamples.template_only) as H.
  destruct (create_env_file MoreSamples.template_only) as [[lines created] fs'].
  destruct H as (Hkeep & _ & _ & _ & _ & Hcopy).
  split.
  - apply Hcopy; reflexivity.
  - apply Hkeep. reflexivity.
Defined.

(** *** Module names *)

Lemma replace_hyphen_free s : contains "-" (replace_char "-" "_" s) = false.
Proof.
  induction s as [|c s IH]; [reflexivity|].
  cbn [replace_char contains]. rewrite IH, orb_false_r.
  destruct (Ascii.eqb_spec c "-") as [->|Hc]; cbn [String.prefix].
  - reflexivity.
  - destruct (ascii_dec "-" c) as [<-|_]; [done|reflexivity].
Qed.

Lemma replace_hyphen_id s :
  contains "-" s = false -> replace_char "-" "_" s = s.
Proof.
  induction s as [|c s IH]; [reflexivity|].
  cbn [replace_char contains]. intros [Hp Hs]%orb_false_iff.
  rewrite (IH Hs). destruct (Ascii.eqb_spec c "-") as [->|Hc]; [|done].
  assert (String.prefix "-" (String "-" s) = true) as Ht; [|congruence].
  apply prefix_spec. by exists s.
Qed.

(** X12. The module imported for a package never has a hyphen in its
    name, whatever the package is called; and a package name without a
    hyphen is imported under that very name. *)
Theorem module_name_hyphen_free package :
  contains "-" (module_name package) = false
  /\ (contains "-" package = false -> module_name package = package).
Proof.
  unfold module_name.
  destruct (String.eqb_spec package "python-dotenv") as [->|H1].
  { split; [reflexivity|discriminate]. }
  destruct (String.eqb_spec package "youtube-transcript-api") as [->|H2].
  { split; [reflexivity|discriminate]. }
  destruct (String.eqb_spec package "pydantic-settings") as [->|H3].
  { split; [reflexivity|discriminate]. }
  split; [apply replace_hyphen_free|apply replace_hyphen_id].
Qed.

Lemma module_name_hyphen_free_witness :
  module_name "sqlmodel" = "sqlmodel"%string
  /\ contains "-" (module_name "pydantic-settings") = false.
Proof.
  split.
  - by apply (module_name_hyphen_free "sqlmodel").
  - apply (module_name_hyphen_free "pydantic-settings").
Defined.

(** *** The checks *)

Lemma missing_among_spec (importable : string -> bool) packages p :
  In p (missing_among importable packages) <->
  In p packages /\ importable (module_name p) = false.
Proof.
  induction packages as [|q packages IH]; simpl; [tauto|].
  destruct (importable (module_name q)) eqn:Hq; simpl; rewrite IH.
  - split; [tauto|]. intros [[->|?] Hp]; [congruence|tauto].
  - split; [|tauto]. intros [->|[? ?]]; auto.
Qed.

Lemma missing_among_nil (importable : string -> bool) packages :
  missing_among importable packages = [] <->
  forall p, In p packages -> importable (module_name p) = true.
Proof.
  split.
  - intros Hnil p Hp. destruct (importable (module_name p)) eqn:Himp; [done|].
    assert (In p (missing_among importable packages)) as Hin
      by by apply missing_among_spec.
    rewrite Hnil in Hin. destruct Hin.
  - intros Hall. destruct (missing_among importable packages) as [|p l] eqn:Hm; [done|].
    assert (In p (missing_among importable packages)) as Hin
      by (rewrite Hm; by left).
    apply missing_among_spec in Hin as [Hin Hf]. rewrite (Hall _ Hin) in Hf.
    discriminate.
Qed.

Lemma check_dependencies_flag (importable : string -> bool) :
  (check_dependencies importable).2 = true <->
  forall p, In p required_packages -> importable (module_name p) = true.
Proof.
  rewrite <- missing_among_nil. unfold check_dependencies.
  destruct (missing_among importable required_packages); simpl; split; congruence.
Qed.

Lemma unconfigured_spec (getenv : string -> option string) name :
  unconfigured (getenv name) = false <-> configured getenv name.
Proof.
  unfold unconfigured, configured. destruct (getenv name) as [v|].
  - rewrite orb_false_iff, negb_false_iff. split.
    + intros [Ht Hp]. exists v. split; [done|]. split.
      * intros ->. discriminate.
      * intros Hex. apply prefix_spec in Hex. congruence.
    + intros (v' & [= <-] & Hne & Hnp). split.
      * by destruct v.
      * destruct (String.prefix "your_" v) eqn:Hp; [|done].
        destruct Hnp. by apply prefix_spec.
  - split; [discriminate|]. by intros (v & ? & _).
Qed.

Lemma check_api_keys_flag (getenv : string -> option string) :
  (check_api_keys getenv).2 = true <->
  configured getenv "TAVILY_API_KEY" /\ configured getenv "GROQ_API_KEY".
Proof.
  rewrite <- !unconfigured_spec. unfold check_api_keys, api_key_issues.
  destruct (unconfigured (getenv "TAVILY_API_KEY"));
    destruct (unconfigured (getenv "GROQ_API_KEY")); simpl;
    split; (congruence || tauto || by intros [? ?]).
Qed.

Lemma main_outcome importable getenv version (fs : gmap string string) :
  (main importable getenv version fs).1.2
  = negb (too_old version) && (create_env_file fs).1.2
    && (check_dependencies importable).2
  /\ (main importable getenv version fs).2
     = if too_old version then fs else (create_env_file fs).2.
Proof.
  unfold main. destruct (too_old version); [done|].
  destruct (create_env_file fs) as [[lines created] fs'].
  destruct created; [|done].
  destruct (check_dependencies importable) as [lines' deps_ok].
  destruct deps_ok; [|done].
  destruct (check_api_keys getenv) as [lines'' keys_ok].
  by destruct keys_ok.
Qed.

(** X13. [check_dependencies] succeeds exactly when the module of every
    required package can be imported; when it fails, the packages it
    lists are exactly the required ones whose module cannot be imported,
    each under its package name. *)
Theorem check_dependencies_reports_missing (importable : string -> bool) :
  let '(lines, ok) := check_dependencies importable in
  (ok = true <->
   forall p, In p required_packages -> importable (module_name p) = true)
  /\ (ok = true -> lines = [AllInstalled])
  /\ (ok = false ->
      forall p, In (MissingPackage p) lines <->
                In p required_packages /\ importable (module_name p) = false).
Proof.
  pose proof (check_dependencies_flag importable) as Hflag.
  unfold check_dependencies in *.
  pose proof (missing_among_spec importable required_packages) as Hspec.
  destruct (missing_among importable required_packages) as [|q l];
    cbn [snd] in Hflag.
  - split; [done|]. split; [done|]. discriminate.
  - split; [done|]. split; [discriminate|]. intros _ p.
    rewrite <- Hspec. cbn [In]. rewrite in_app_iff, in_map_iff. cbn [In].
    split.
    + intros [H|[(x & [= <-] & Hx)|[H|[]]]]; try discriminate. exact Hx.
    + intros Hx. right. left. by exists p.
Qed.

Lemma check_dependencies_reports_missing_witness :
  check_dependencies (fun name => negb (String.eqb name "dotenv"))
  = ([MissingPackages; MissingPackage "python-dotenv"; InstallHint], false)
  /\ In "python-dotenv"%string required_packages.
Proof.
  split; [reflexivity|].
  pose proof (check_dependencies_reports_missing
                (fun name => negb (String.eqb name "dotenv"))) as H.
  destruct (check_dependencies (fun name => negb (String.eqb name "dotenv")))
    as [lines ok] eqn:Hc.
  injection Hc as <- <-.
  destruct H as (_ & _ & H). apply (H eq_refl "python-dotenv"%string).
  simpl. auto.
Defined.

(** X14. [check_api_keys] succeeds exactly when both keys are configured:
    each of [TAVILY_API_KEY] and [GROQ_API_KEY] is set, is not empty, and
    does not start with [your_] as the placeholders of the template do. *)
Theorem check_api_keys_wants_both (getenv : string -> option string) :
  let '(lines, ok) := check_api_keys getenv in
  (ok = true <->
   configured getenv "TAVILY_API_KEY" /\ configured getenv "GROQ_API_KEY")
  /\ (ok = true -> lines = [ApiKeysConfigured])
  /\ (ok = false -> In ApiKeyIssues lines /\ In EditEnvHint lines).
Proof.
  pose proof (check_api_keys_flag getenv) as Hflag.
  unfold check_api_keys in *.
  destruct (api_key_issues getenv) as [|i l]; cbn [snd] in Hflag.
  - split; [done|]. split; [done|]. discriminate.
  - split; [done|]. split; [discriminate|]. intros _. split; [by left|].
    right. rewrite in_app_iff. right. by left.
Qed.

Lemma check_api_keys_wants_both_witness :
  (check_api_keys MoreSamples.keys_set).2 = true
  /\ (check_api_keys MoreSamples.placeholder_keys).2 = false.
Proof.
  split.
  - pose proof (check_api_keys_wants_both MoreSamples.keys_set) as H.
    destruct (check_api_keys MoreSamples.keys_set) as [lines ok].
    apply H. split.
    + exists "tvly-123"%string. split; [reflexivity|]. split; [discriminate|].
      intros [rest Hr]. discriminate Hr.
    + exists "gsk-456"%string. split; [reflexivity|]. split; [discriminate|].
      intros [rest Hr]. discriminate Hr.
  - reflexivity.
Defined.

(** X15. [main] returns [True] exactly when the interpreter is 3.11 or
    newer, [.env] or [env.example] exists, and the module of every
    required package can be imported.  The API keys play no part in the
    result. *)
Theorem main_succeeds_iff importable getenv version (fs : gmap string string) :
  ((main importable getenv version fs).1.2 = true <->
   too_old version = false
   /\ (is_Some (fs !! ".env"%string) \/ is_Some (fs !! "env.example"%string))
   /\ (forall p, In p required_packages -> importable (module_name p) = true))
  /\ (forall getenv',
        (main importable getenv' version fs).1.2
        = (main importable getenv version fs).1.2
        /\ (main importable getenv' version fs).2
           = (main importable getenv version fs).2).
Proof.
  split.
  - destruct (main_outcome importable getenv version fs) as [-> _].
    rewrite !andb_true_iff, negb_true_iff, check_dependencies_flag.
    assert ((create_env_file fs).1.2 = true <->
            is_Some (fs !! ".env"%string) \/ is_Some (fs !! "env.example"%string))
      as ->; [|tauto].
    unfold create_env_file.
    destruct (fs !! ".env"%string), (fs !! "env.example"%string); simpl;
      split; try done; eauto; intros [[? ?]|[? ?]]; done.
  - intros getenv'.
    destruct (main_outcome importable getenv version fs) as [-> ->].
    destruct (main_outcome importable getenv' version fs) as [-> ->]. done.
Qed.

Lemma main_succeeds_iff_witness :
  (main MoreSamples.everything_installed MoreSamples.placeholder_keys (3, 12)%Z
        MoreSamples.template_only).1.2 = true.
Proof.
  destruct (main_succeeds_iff MoreSamples.everything_installed
              MoreSamples.placeholder_keys (3, 12)%Z MoreSamples.template_only)
    as [[_ H] _].
  apply H. split; [reflexivity|]. split; [|reflexivity].
  right. by exists "TAVILY_API_KEY=your_tavily_key"%string.
Defined.

(** X16. [main] never loses a file: every file of the directory is there
    afterwards with the same text, and only [.env] can be new.  With an
    interpreter older than 3.11 nothing is written at all; otherwise a
    missing [.env] is copied from [env.example] before the packages are
    checked, so it is there even when [main] returns [False] for a
    missing package. *)
Theorem main_keeps_files importable getenv version (fs : gmap string string) :
  let fs' := (main importable getenv version fs).2 in
  (forall path text, fs !! path = Some text -> fs' !! path = Some text)
  /\ (forall path, path <> ".env"%string -> fs' !! path = fs !! path)
  /\ (too_old version = true -> fs' = fs)
  /\ (too_old version = false -> fs !! ".env"%string = None ->
      forall template, fs !! "env.example"%string = Some template ->
                       fs' !! ".env"%string = Some template).
Proof.
  intros fs'. unfold fs'.
  destruct (main_outcome importable getenv version fs) as [_ ->].
  destruct (too_old version).
  { split_and!; try done. }
  unfold create_env_file.
  destruct (fs !! ".env"%string) as [env|] eqn:Henv;
    [|destruct (fs !! "env.example"%string) as [template|] eqn:Hex]; cbn [snd].
  - split_and!; done.
  - split_and!; try done.
    + intros path text Hp. rewrite lookup_insert_ne; [done|]. congruence.
    + intros path Hp. by rewrite lookup_insert_ne.
    + intros _ _ t [= <-]. by rewrite lookup_insert_eq.
  - split_and!; done.
Qed.

Lemma main_keeps_files_witness :
  (main (fun name => negb (String.eqb name "dotenv")) MoreSamples.keys_set
        (3, 12)%Z MoreSamples.template_only).2 !! ".env"%string
  = Some "TAVILY_API_KEY=your_tavily_key"%string
  /\ (main MoreSamples.everything_installed MoreSamples.keys_set
           (3, 10)%Z MoreSamples.template_only).2
     = MoreSamples.template_only.
Proof.
  split.
  - apply (main_keeps_files (fun name => negb (String.eqb name "dotenv"))
             MoreSamples.keys_set (3, 12)%Z MoreSamples.template_only);
      reflexivity.
  - apply (main_keeps_files MoreSamples.everything_installed
             MoreSamples.keys_set (3, 10)%Z MoreSamples.template_only).
    reflexivity.
Defined.

End SetupScript.
